(** * REST handlers over the movies, theaters and comments collections

    A shallow embedding of the route handlers of the repository
    (Next.js route files under [app/api]) together with the results the
    specification states about them.

    Every handler is an [async] function whose body is one [try]/[catch]
    around (a) awaiting the shared client, (b) validating path ids,
    (c) one call to the document store and (d) building a JSON envelope
    with [NextResponse.json].  The embedding keeps that shape: handlers are
    computations in a state-and-exception monad [M] over the store, written
    statement by statement in the order of the source. *)

From Stdlib Require Import List String Ascii ZArith NArith Bool Lia.
Import ListNotations.

Local Open Scope string_scope.
Local Open Scope Z_scope.

(* ================================================================== *)
(** ** Thrown values and results *)

(** What the driver, the framework and the runtime throw inside a handler:
    an [Error] object, of which the handlers only ever read [message]. *)
Module Error.
Record t : Type := make { message : string }.
End Error.

Inductive Res (A : Type) : Type :=
| Ok (a : A)
| Throw (e : Error.t).
Arguments Ok {A} a.
Arguments Throw {A} e.

(* ================================================================== *)
(** ** Store identifiers *)

Module ObjectId.

(** The twelve bytes of an identifier, read as one big-endian number. *)
Definition t : Type := N.

Definition isHexDigit (c : ascii) : bool :=
  let n := nat_of_ascii c in
  ((48 <=? n) && (n <=? 57)      (* 0-9 *)
   || (97 <=? n) && (n <=? 102)  (* a-f *)
   || (65 <=? n) && (n <=? 70))%nat.  (* A-F *)

(** Modelled from the spec: [ObjectId.isValid] belongs to the store's
    driver package, whose code is not part of the repository; the
    specification gives its contract for path strings, "a 24-character
    hexadecimal value".  A character of the string stands for one code
    unit of the path segment. *)
Definition isValid (id : string) : bool :=
  (String.length id =? 24)%nat && forallb isHexDigit (list_ascii_of_string id).

Definition hexValue (c : ascii) : N :=
  let n := N_of_ascii c in
  (if (97 <=? n) then n - 87 else if (65 <=? n) then n - 55 else n - 48)%N.

Definition fromHex (id : string) : t :=
  fold_left (fun acc c => (16 * acc + hexValue c)%N) (list_ascii_of_string id) 0%N.

Definition invalidInput : Error.t :=
  Error.make "input must be a 24 character hex string, 12 byte Uint8Array, or an integer".

(** Modelled from the spec: [new ObjectId(id)], the driver's constructor,
    builds the identifier a valid string denotes (the two cases of a hex
    digit denote the same value) and throws on any other string. *)
Definition create (id : string) : Res t :=
  if isValid id then Ok (fromHex id) else Throw invalidInput.

End ObjectId.

(* ================================================================== *)
(** ** Documents *)

(** Field values of the schemaless documents, and of parsed request
    bodies. *)
#[local] Set Warnings "-register-all".
Inductive Value : Type :=
| VNull
| VBool (b : bool)
| VNum (z : Z)
| VStr (s : string)
| VId (i : ObjectId.t)
| VDate (ms : Z)
| VArr (l : list Value)
| VObj (fs : list (string * Value)).

Definition Fields : Type := list (string * Value).

(** A stored document: its primary key and its other fields, in order. *)
Record Doc : Type := mkDoc { _id : Value; fields : Fields }.

Fixpoint value_eqb (a b : Value) {struct a} : bool :=
  match a, b with
  | VNull, VNull => true
  | VBool x, VBool y => Bool.eqb x y
  | VNum x, VNum y => Z.eqb x y
  | VStr x, VStr y => String.eqb x y
  | VId x, VId y => N.eqb x y
  | VDate x, VDate y => Z.eqb x y
  | VArr l, VArr m =>
      (fix go (l m : list Value) {struct l} : bool :=
         match l, m with
         | [], [] => true
         | x :: l', y :: m' => value_eqb x y && go l' m'
         | _, _ => false
         end) l m
  | VObj l, VObj m =>
      (fix go (l m : Fields) {struct l} : bool :=
         match l, m with
         | [], [] => true
         | (k, x) :: l', (k', y) :: m' =>
             String.eqb k k' && value_eqb x y && go l' m'
         | _, _ => false
         end) l m
  | _, _ => false
  end.

Fixpoint get_field (k : string) (fs : Fields) : option Value :=
  match fs with
  | [] => None
  | (k', v) :: rest => if String.eqb k k' then Some v else get_field k rest
  end.

(** One [$set] assignment: overwrite the field in place, or append it. *)
Fixpoint set_field (k : string) (v : Value) (fs : Fields) : Fields :=
  match fs with
  | [] => [(k, v)]
  | (k', v') :: rest =>
      if String.eqb k k' then (k, v) :: rest else (k', v') :: set_field k v rest
  end.

(** [{ $set: upd }] applied to the fields of a document. *)
Definition apply_set (upd : Fields) (fs : Fields) : Fields :=
  fold_left (fun acc kv => set_field (fst kv) (snd kv) acc) upd fs.

Definition doc_field (k : string) (d : Doc) : option Value :=
  if String.eqb k "_id" then Some (_id d) else get_field k (fields d).

(** Equality match of a query value against a stored value: the stored
    value is equal to it, or is an array holding it. *)
Definition field_matches (stored : option Value) (q : Value) : bool :=
  match stored with
  | None => false
  | Some v =>
      value_eqb v q
      || match v with
         | VArr l => existsb (fun e => value_eqb e q) l
         | _ => false
         end
  end.

(** A query document such as [{ _id: ..., movie_id: ... }]; [[]] is [{}]. *)
Definition Filter : Type := list (string * Value).

Definition matches (f : Filter) (d : Doc) : bool :=
  forallb (fun kq => field_matches (doc_field (fst kq) d) (snd kq)) f.

(* ================================================================== *)
(** ** The store *)

Definition Collection : Type := list Doc.

Inductive CollName : Type := movies | theaters | comments.

(** The database [sample_mflix]. *)
Record Db : Type := mkDb {
  db_movies : Collection;
  db_theaters : Collection;
  db_comments : Collection
}.

Definition collection (c : CollName) (d : Db) : Collection :=
  match c with
  | movies => db_movies d
  | theaters => db_theaters d
  | comments => db_comments d
  end.

Definition set_collection (c : CollName) (docs : Collection) (d : Db) : Db :=
  match c with
  | movies => mkDb docs (db_theaters d) (db_comments d)
  | theaters => mkDb (db_movies d) docs (db_comments d)
  | comments => mkDb (db_movies d) (db_theaters d) docs
  end.

(** The store calls a handler can issue. *)
Inductive OpKind : Type := OpFind | OpFindOne | OpInsertOne | OpUpdateOne | OpDeleteOne.

Record Call : Type := mkCall { call_op : OpKind; call_on : CollName }.

(** What a handler runs against: the database, and two traces kept for the
    statements below, the store calls issued and the exceptions thrown. *)
Record State : Type := mkState {
  db : Db;
  calls : list Call;
  thrown : list Error.t
}.

(** What the surroundings decide for one request: whether the shared
    client promise resolves, whether the store call fails, the identifier
    the driver generates for an inserted document, and the clock. *)
Record Env : Type := mkEnv {
  clientPromise : Res unit;
  fault : option Error.t;
  freshId : ObjectId.t;
  now : Z
}.

(* ================================================================== *)
(** ** The handler monad *)

Definition M (A : Type) : Type := State -> Res A * State.

Definition ret {A} (a : A) : M A := fun s => (Ok a, s).

Definition throw {A} (e : Error.t) : M A :=
  fun s => (Throw e, mkState (db s) (calls s) (thrown s ++ [e])%list).

Definition bind {A B} (m : M A) (k : A -> M B) : M B :=
  fun s =>
    match m s with
    | (Ok a, s') => k a s'
    | (Throw e, s') => (Throw e, s')
    end.

(** [try { body } catch (error) { handler }] *)
Definition try_catch {A} (body : M A) (handler : Error.t -> M A) : M A :=
  fun s =>
    match body s with
    | (Ok a, s') => (Ok a, s')
    | (Throw e, s') => handler e s'
    end.

(** A step whose outcome is already decided. *)
Definition lift {A} (r : Res A) : M A :=
  match r with
  | Ok a => ret a
  | Throw e => throw e
  end.

Notation "x <- m ;; k" := (bind m (fun x => k))
  (at level 61, m at next level, right associativity).
Notation "m ;;; k" := (bind m (fun _ => k))
  (at level 61, right associativity).

Definition record (o : OpKind) (c : CollName) : M unit :=
  fun s => (Ok tt, mkState (db s) (calls s ++ [mkCall o c])%list (thrown s)).

Definition get_coll (c : CollName) : M Collection :=
  fun s => (Ok (collection c (db s)), s).

Definition put_coll (c : CollName) (docs : Collection) : M unit :=
  fun s => (Ok tt, mkState (set_collection c docs (db s)) (calls s) (thrown s)).

(** A store call: it is issued, and then fails or runs. *)
Definition store_call {A} (env : Env) (o : OpKind) (c : CollName) (run : M A) : M A :=
  record o c ;;;
  match fault env with
  | Some e => throw e
  | None => run
  end.

(** [await clientPromise; client.db('sample_mflix')] *)
Definition await_client (env : Env) : M unit := lift (clientPromise env).

(* ------------------------------------------------------------------ *)
(** *** Store operations *)

(** Modelled from the spec: the driver's [collection.find(f).toArray()],
    with [.limit(n)] when [limit] is given: the matching documents "in
    insertion order as returned by the store", cut at the limit. *)
Definition find_toArray (env : Env) (c : CollName) (f : Filter) (limit : option nat)
  : M (list Doc) :=
  store_call env OpFind c
    (docs <- get_coll c ;;
     let found := filter (matches f) docs in
     ret (match limit with Some n => firstn n found | None => found end)).

(** Modelled from the spec: the driver's [collection.findOne(f)], a
    "look up by exact match": the first match, or [null]. *)
Definition findOne (env : Env) (c : CollName) (f : Filter) : M (option Doc) :=
  store_call env OpFindOne c
    (docs <- get_coll c ;; ret (find (matches f) docs)).

Definition has_id (i : ObjectId.t) (docs : Collection) : bool :=
  existsb (fun d => value_eqb (_id d) (VId i)) docs.

Definition duplicateKey : Error.t :=
  Error.make "E11000 duplicate key error".

(** Modelled from the spec: the driver's [collection.insertOne(doc)] for a
    [doc] without [_id]: one document is added under a "store-assigned
    id"; the store, which owns the uniqueness of ids, refuses a key it
    already holds. *)
Definition insertOne (env : Env) (c : CollName) (fs : Fields) : M ObjectId.t :=
  store_call env OpInsertOne c
    (docs <- get_coll c ;;
     if has_id (freshId env) docs then throw duplicateKey
     else put_coll c (docs ++ [mkDoc (VId (freshId env)) fs])%list ;;;
          ret (freshId env)).

Record UpdateResult : Type := mkUpdateResult {
  matchedCount : N;
  modifiedCount : N
}.

(** Apply [f] to the first document satisfying [p]. *)
Fixpoint update_first (p : Doc -> bool) (f : Doc -> Doc) (docs : Collection) : Collection :=
  match docs with
  | [] => []
  | d :: rest => if p d then f d :: rest else d :: update_first p f rest
  end.

Definition set_doc (upd : Fields) (d : Doc) : Doc :=
  mkDoc (_id d) (apply_set upd (fields d)).

(** Modelled from the spec: the driver's
    [collection.updateOne(f, { $set: upd })]: the fields of [upd] are
    replaced in the first matching document, and the result counts the
    documents matched (one or none) and modified. *)
Definition updateOne (env : Env) (c : CollName) (f : Filter) (upd : Fields)
  : M UpdateResult :=
  store_call env OpUpdateOne c
    (docs <- get_coll c ;;
     match find (matches f) docs with
     | None => ret (mkUpdateResult 0 0)
     | Some d =>
         put_coll c (update_first (matches f) (set_doc upd) docs) ;;;
         ret (mkUpdateResult 1
                (if value_eqb (VObj (fields (set_doc upd d))) (VObj (fields d))
                 then 0 else 1))
     end).

Record DeleteResult : Type := mkDeleteResult { deletedCount : N }.

(** Remove the first document satisfying [p]. *)
Fixpoint remove_first (p : Doc -> bool) (docs : Collection) : Collection :=
  match docs with
  | [] => []
  | d :: rest => if p d then rest else d :: remove_first p rest
  end.

(** Modelled from the spec: the driver's [collection.deleteOne(f)]
    "removes at most one matching document", the first, and counts it. *)
Definition deleteOne (env : Env) (c : CollName) (f : Filter) : M DeleteResult :=
  store_call env OpDeleteOne c
    (docs <- get_coll c ;;
     match find (matches f) docs with
     | None => ret (mkDeleteResult 0)
     | Some _ =>
         put_coll c (remove_first (matches f) docs) ;;;
         ret (mkDeleteResult 1)
     end).

(* ================================================================== *)
(** ** Responses *)

(** The shapes the handlers put under [data]. *)
Inductive Data : Type :=
| DArray (docs : list Doc)             (* data: theaters, data: comments *)
| DDoc (d : Doc)                       (* data: comment *)
| DWrapped (key : string) (d : Doc)    (* data: { movie }, data: { theater } *)
| DInsertedId (i : ObjectId.t)         (* data: { insertedId: result.insertedId } *)
| DUpdatedId (r : UpdateResult).       (* data: { updatedId: updateResult } *)

(** The JSON envelope [{ status, message?, data?, error? }]. *)
Record Envelope : Type := mkEnvelope {
  status : Z;
  message : option string;
  data : option Data;
  error : option string
}.

Module NextResponse.

(** What goes on the wire: the transport status and the JSON body. *)
Record t : Type := make { status : Z; body : Envelope }.

(** Modelled from the spec: [NextResponse.json(body, init?)] belongs to the
    web framework.  Called with a body alone it answers with transport
    status 200 ("always 200 at the framework level"); the status of an
    [init] argument, were one passed, would replace it. *)
Definition json (body : Envelope) (init : option Z) : t :=
  make (match init with Some s => s | None => 200 end) body.

End NextResponse.

(** [return NextResponse.json(e)], the only form the handlers use. *)
Definition respond (e : Envelope) : M NextResponse.t :=
  ret (NextResponse.json e None).

Definition internalServerError (e : Error.t) : Envelope :=
  {| status := 500; message := Some "Internal Server Error";
     data := None; error := Some (Error.message e) |}.

(** The [catch (error: any)] block every guarded handler ends with. *)
Definition internal_error (e : Error.t) : M NextResponse.t :=
  respond (internalServerError e).

(* ================================================================== *)
(** ** app/api/movies/[idMovie]/route.ts *)

Module MovieItem.

Definition GET (env : Env) (idMovie : string) : M NextResponse.t :=
  try_catch
    (await_client env ;;;
     if negb (ObjectId.isValid idMovie) then
       respond {| status := 400; message := Some "Invalid movie ID";
                  data := None; error := Some "ID format is incorrect" |}
     else
       oid <- lift (ObjectId.create idMovie) ;;
       movie <- findOne env movies [("_id", VId oid)] ;;
       match movie with
       | None =>
           respond {| status := 404; message := Some "Movie not found";
                      data := None; error := Some "No movie found with the given ID" |}
       | Some m =>
           respond {| status := 200; message := None;
                      data := Some (DWrapped "movie" m); error := None |}
       end)
    internal_error.

Definition placeholder : Fields :=
  [("title", VStr "test"); ("year", VNum 2025); ("director", VStr "Thomas");
   ("genre", VArr [VStr "Sci-fi"]); ("plot", VStr "test test testt")].

Definition POST (env : Env) : M NextResponse.t :=
  try_catch
    (await_client env ;;;
     let movie := placeholder in
     insertedId <- insertOne env movies movie ;;
     respond {| status := 201; message := Some "Movie successfully added";
                data := Some (DInsertedId insertedId); error := None |})
    internal_error.

Definition replacement : Fields :=
  [("title", VStr "Thomas2"); ("year", VNum 2014); ("director", VStr "CThomas");
   ("genre", VArr [VStr "Sci-fi"; VStr "Adventure"]);
   ("plot", VStr "A group of explorers travel through a wormhole in space in an attempt to ensure humanity's survival.")].

Definition PUT (env : Env) (idMovie : string) : M NextResponse.t :=
  try_catch
    (await_client env ;;;
     if negb (ObjectId.isValid idMovie) then
       respond {| status := 400; message := Some "Invalid movie ID";
                  data := None; error := Some "ID format is incorrect" |}
     else
       let movie := replacement in
       oid <- lift (ObjectId.create idMovie) ;;
       updateResult <- updateOne env movies [("_id", VId oid)] movie ;;
       if (matchedCount updateResult =? 0)%N then
         respond {| status := 404; message := Some "Movie not found";
                    data := None; error := Some "No movie to update with the given ID" |}
       else
         respond {| status := 200; message := Some "Movie successfully updated";
                    data := Some (DUpdatedId updateResult); error := None |})
    internal_error.

Definition DELETE (env : Env) (idMovie : string) : M NextResponse.t :=
  try_catch
    (await_client env ;;;
     if negb (ObjectId.isValid idMovie) then
       respond {| status := 400; message := Some "Invalid movie ID";
                  data := None; error := Some "ID format is incorrect" |}
     else
       oid <- lift (ObjectId.create idMovie) ;;
       result <- deleteOne env movies [("_id", VId oid)] ;;
       if (deletedCount result =? 0)%N then
         respond {| status := 404; message := Some "Movie not found";
                    data := None; error := Some "No movie deleted" |}
       else
         respond {| status := 200; message := Some "Movie successfully deleted";
                    data := None; error := None |})
    internal_error.

End MovieItem.

(* ================================================================== *)
(** ** app/api/theaters/route.ts *)

Module Theaters.

Definition GET (env : Env) : M NextResponse.t :=
  try_catch
    (await_client env ;;;
     docs <- find_toArray env theaters [] (Some 10%nat) ;;
     respond {| status := 200; message := None;
                data := Some (DArray docs); error := None |})
    internal_error.

Definition POST : M NextResponse.t :=
  respond {| status := 405; message := Some "Method Not Allowed";
             data := None; error := Some "POST method is not supported" |}.

Definition PUT : M NextResponse.t :=
  respond {| status := 405; message := Some "Method Not Allowed";
             data := None; error := Some "PUT method is not supported" |}.

Definition DELETE : M NextResponse.t :=
  respond {| status := 405; message := Some "Method Not Allowed";
             data := None; error := Some "DELETE method is not supported" |}.

End Theaters.

(* ================================================================== *)
(** ** app/api/theaters/[idTheater]/route.ts *)

Module TheaterItem.

Definition GET (env : Env) (idTheater : string) : M NextResponse.t :=
  try_catch
    (await_client env ;;;
     if negb (ObjectId.isValid idTheater) then
       respond {| status := 400; message := Some "Invalid theater ID";
                  data := None; error := Some "ID format is incorrect" |}
     else
       oid <- lift (ObjectId.create idTheater) ;;
       theater <- findOne env theaters [("_id", VId oid)] ;;
       match theater with
       | None =>
           respond {| status := 404; message := Some "Theater not found";
                      data := None; error := Some "No theater found with the given ID" |}
       | Some t =>
           respond {| status := 200; message := None;
                      data := Some (DWrapped "theater" t); error := None |}
       end)
    internal_error.

Definition placeholder : Fields := [("theaterId", VStr "test")].

Definition POST (env : Env) : M NextResponse.t :=
  try_catch
    (await_client env ;;;
     let theater := placeholder in
     insertedId <- insertOne env theaters theater ;;
     respond {| status := 201; message := Some "Theater successfully added";
                data := Some (DInsertedId insertedId); error := None |})
    internal_error.

Definition replacement : Fields := [("theaterId", VStr "test2")].

Definition PUT (env : Env) (idTheater : string) : M NextResponse.t :=
  try_catch
    (await_client env ;;;
     if negb (ObjectId.isValid idTheater) then
       respond {| status := 400; message := Some "Invalid theater ID";
                  data := None; error := Some "ID format is incorrect" |}
     else
       let theater := replacement in
       oid <- lift (ObjectId.create idTheater) ;;
       updateResult <- updateOne env theaters [("_id", VId oid)] theater ;;
       if (matchedCount updateResult =? 0)%N then
         respond {| status := 404; message := Some "Theater not found";
                    data := None; error := Some "No theater to update with the given ID" |}
       else
         respond {| status := 200; message := Some "Theater successfully updated";
                    data := Some (DUpdatedId updateResult); error := None |})
    internal_error.

Definition DELETE (env : Env) (idTheater : string) : M NextResponse.t :=
  try_catch
    (await_client env ;;;
     if negb (ObjectId.isValid idTheater) then
       respond {| status := 400; message := Some "Invalid theater ID";
                  data := None; error := Some "ID format is incorrect" |}
     else
       oid <- lift (ObjectId.create idTheater) ;;
       result <- deleteOne env theaters [("_id", VId oid)] ;;
       if (deletedCount result =? 0)%N then
         respond {| status := 404; message := Some "Theater not found";
                    data := None; error := Some "No theater deleted" |}
       else
         respond {| status := 200; message := Some "Theater successfully deleted";
                    data := None; error := None |})
    internal_error.

End TheaterItem.

(* ================================================================== *)
(** ** Route file of /api/movies/{idMovie}/comments/{idComment} *)

Module CommentItem.

Definition invalid_format : Envelope :=
  {| status := 400; message := Some "Invalid ID format"; data := None; error := None |}.

Definition not_found : Envelope :=
  {| status := 404; message := Some "Comment not found"; data := None; error := None |}.

Definition GET (env : Env) (idMovie idComment : string) : M NextResponse.t :=
  try_catch
    (await_client env ;;;
     if negb (ObjectId.isValid idMovie) || negb (ObjectId.isValid idComment) then
       respond invalid_format
     else
       cid <- lift (ObjectId.create idComment) ;;
       mid <- lift (ObjectId.create idMovie) ;;
       comment <- findOne env comments [("_id", VId cid); ("movie_id", VId mid)] ;;
       match comment with
       | None => respond not_found
       | Some c =>
           respond {| status := 200; message := None; data := Some (DDoc c); error := None |}
       end)
    internal_error.

(** The hard-coded comment of [POST]. *)
Definition newComment (mid : ObjectId.t) (date : Z) : Fields :=
  [("name", VStr "test"); ("email", VStr "test"); ("text", VStr "test");
   ("movie_id", VId mid); ("date", VDate date)].

Definition POST (env : Env) (idMovie idComment : string) : M NextResponse.t :=
  try_catch
    (if negb (String.eqb idComment "null") then
       respond {| status := 400; message := Some "POST must target /comments/null only";
                  data := None; error := None |}
     else if negb (ObjectId.isValid idMovie) then
       respond {| status := 400; message := Some "Invalid movie ID format";
                  data := None; error := None |}
     else
       await_client env ;;;
       mid <- lift (ObjectId.create idMovie) ;;
       insertedId <- insertOne env comments (newComment mid (now env)) ;;
       respond {| status := 201; message := Some "Comment created successfully";
                  data := Some (DInsertedId insertedId); error := None |})
    internal_error.

Definition destructureNull : Error.t :=
  Error.make "Cannot destructure property 'text' of '(intermediate value)' as it is null.".

(** [const { text } = v] for a parsed body [v]: reading a property of
    [null] throws, any other value yields the property or [undefined]. *)
Definition destructure_text (v : Value) : Res (option Value) :=
  match v with
  | VNull => Throw destructureNull
  | VObj fs => Ok (get_field "text" fs)
  | _ => Ok None
  end.

(** [{ text }] as the driver serialises it: [undefined] is written as
    [null]. *)
Definition text_update (text : option Value) : Fields :=
  [("text", match text with Some v => v | None => VNull end)].

(** [json] is the outcome of [request.json()]. *)
Definition PUT (env : Env) (json : Res Value) (idMovie idComment : string)
  : M NextResponse.t :=
  try_catch
    (parsed <- lift json ;;
     text <- lift (destructure_text parsed) ;;
     if negb (ObjectId.isValid idMovie) || negb (ObjectId.isValid idComment) then
       respond invalid_format
     else
       await_client env ;;;
       cid <- lift (ObjectId.create idComment) ;;
       mid <- lift (ObjectId.create idMovie) ;;
       result <- updateOne env comments [("_id", VId cid); ("movie_id", VId mid)]
                   (text_update text) ;;
       if (matchedCount result =? 0)%N then respond not_found
       else
         respond {| status := 200; message := Some "Comment updated successfully";
                    data := None; error := None |})
    internal_error.

Definition DELETE (env : Env) (idMovie idComment : string) : M NextResponse.t :=
  try_catch
    (if negb (ObjectId.isValid idMovie) || negb (ObjectId.isValid idComment) then
       respond invalid_format
     else
       await_client env ;;;
       cid <- lift (ObjectId.create idComment) ;;
       mid <- lift (ObjectId.create idMovie) ;;
       result <- deleteOne env comments [("_id", VId cid); ("movie_id", VId mid)] ;;
       if (deletedCount result =? 0)%N then respond not_found
       else
         respond {| status := 200; message := Some "Comment deleted successfully";
                    data := None; error := None |})
    internal_error.

End CommentItem.

(* ================================================================== *)
(** ** Route file of /api/movies/{idMovie}/comments *)

Module MovieComments.

Definition GET (env : Env) (idMovie : string) : M NextResponse.t :=
  try_catch
    (await_client env ;;;
     if negb (ObjectId.isValid idMovie) then
       respond {| status := 400; message := Some "Invalid movie ID";
                  data := None; error := Some "ID format is incorrect" |}
     else
       mid <- lift (ObjectId.create idMovie) ;;
       docs <- find_toArray env comments [("movie_id", VId mid)] None ;;
       respond {| status := 200; message := None;
                  data := Some (DArray docs); error := None |})
    internal_error.

Definition POST : M NextResponse.t :=
  respond {| status := 405; message := Some "Method Not Allowed";
             data := None; error := Some "POST method is not supported" |}.

Definition PUT : M NextResponse.t :=
  respond {| status := 405; message := Some "Method Not Allowed";
             data := None; error := Some "PUT method is not supported" |}.

Definition DELETE : M NextResponse.t :=
  respond {| status := 405; message := Some "Method Not Allowed";
             data := None; error := Some "DELETE method is not supported" |}.

End MovieComments.

(* ================================================================== *)
(** ** Routing *)

Inductive Route : Type :=
| MovieItemRoute | TheatersRoute | TheaterItemRoute | CommentItemRoute | MovieCommentsRoute.

Inductive Method : Type := GET | POST | PUT | DELETE.

(** What a handler can read of a request: the path parameters the router
    extracted and the outcome of parsing the body. *)
Record Request : Type := mkRequest {
  idMovie : string;
  idTheater : string;
  idComment : string;
  json : Res Value
}.

Definition handle (r : Route) (m : Method) (env : Env) (req : Request) : M NextResponse.t :=
  match r, m with
  | MovieItemRoute, GET => MovieItem.GET env (idMovie req)
  | MovieItemRoute, POST => MovieItem.POST env
  | MovieItemRoute, PUT => MovieItem.PUT env (idMovie req)
  | MovieItemRoute, DELETE => MovieItem.DELETE env (idMovie req)
  | TheatersRoute, GET => Theaters.GET env
  | TheatersRoute, POST => Theaters.POST
  | TheatersRoute, PUT => Theaters.PUT
  | TheatersRoute, DELETE => Theaters.DELETE
  | TheaterItemRoute, GET => TheaterItem.GET env (idTheater req)
  | TheaterItemRoute, POST => TheaterItem.POST env
  | TheaterItemRoute, PUT => TheaterItem.PUT env (idTheater req)
  | TheaterItemRoute, DELETE => TheaterItem.DELETE env (idTheater req)
  | CommentItemRoute, GET => CommentItem.GET env (idMovie req) (idComment req)
  | CommentItemRoute, POST => CommentItem.POST env (idMovie req) (idComment req)
  | CommentItemRoute, PUT => CommentItem.PUT env (json req) (idMovie req) (idComment req)
  | CommentItemRoute, DELETE => CommentItem.DELETE env (idMovie req) (idComment req)
  | MovieCommentsRoute, GET => MovieComments.GET env (idMovie req)
  | MovieCommentsRoute, POST => MovieComments.POST
  | MovieCommentsRoute, PUT => MovieComments.PUT
  | MovieCommentsRoute, DELETE => MovieComments.DELETE
  end.

(* ================================================================== *)
(** ** Vocabulary of the statements *)

Definition hexDigits : string := "0123456789abcdefABCDEF".

(** A 24-character hexadecimal string. *)
Definition hex24 (id : string) : Prop :=
  String.length id = 24%nat /\
  forall c, In c (list_ascii_of_string id) -> In c (list_ascii_of_string hexDigits).

(** The path ids a handler passes to [ObjectId.isValid]. *)
Definition checked_ids (r : Route) (m : Method) (req : Request) : list string :=
  match r, m with
  | MovieItemRoute, (GET | PUT | DELETE) => [idMovie req]
  | TheaterItemRoute, (GET | PUT | DELETE) => [idTheater req]
  | CommentItemRoute, (GET | PUT | DELETE) => [idMovie req; idComment req]
  | CommentItemRoute, POST => [idMovie req]
  | MovieCommentsRoute, GET => [idMovie req]
  | _, _ => []
  end.

Definition fails_check (r : Route) (m : Method) (req : Request) : bool :=
  existsb (fun id => negb (ObjectId.isValid id)) (checked_ids r m req).

(** The steps a handler runs before it looks at the format of its ids:
    awaiting the client where the source does so first, and reading
    [text] out of the body in the comment [PUT]. *)
Definition before_check (r : Route) (m : Method) (env : Env) (req : Request) : Res unit :=
  match r, m with
  | MovieItemRoute, (GET | PUT | DELETE)
  | TheaterItemRoute, (GET | PUT | DELETE)
  | CommentItemRoute, GET
  | MovieCommentsRoute, GET => clientPromise env
  | CommentItemRoute, PUT =>
      match json req with
      | Ok v =>
          match CommentItem.destructure_text v with
          | Ok _ => Ok tt
          | Throw e => Throw e
          end
      | Throw e => Throw e
      end
  | _, _ => Ok tt
  end.

(** The surroundings let the store call of a handler run to completion. *)
Definition healthy (env : Env) : Prop :=
  clientPromise env = Ok tt /\ fault env = None.

(** A primary key is never an array. *)
Definition key_ok (v : Value) : bool :=
  match v with
  | VArr _ => false
  | _ => true
  end.

(** What the store maintains of a collection: keys are unique. *)
Definition wf_collection (docs : Collection) : Prop :=
  NoDup (map _id docs) /\ (forall d, In d docs -> key_ok (_id d) = true).

(** Concrete requests and stores used to exercise the statements. *)
Module Sample.

Definition movieId : string := "573a1390f29313caabcd680a".
Definition commentId : string := "5a9427648b0beebeb6957a88".
Definition theaterId : string := "59a47286cfa9a3a73e51e72c".

Definition env : Env := mkEnv (Ok tt) None 42%N 1700000000000.

Definition offline : Env :=
  mkEnv (Throw (Error.make "connect ECONNREFUSED 127.0.0.1:27017")) None 42%N 0.

Definition emptyDb : Db := mkDb [] [] [].

Definition start (d : Db) : State := mkState d [] [].

Definition comment (key : N) (movie : string) (text : string) : Doc :=
  mkDoc (VId key)
    [("name", VStr "Thomas Morris"); ("email", VStr "thomas_morris@fakegmail.com");
     ("movie_id", VId (ObjectId.fromHex movie)); ("text", VStr text);
     ("date", VDate 1077777183000)].

(** Eleven comments on one movie. *)
Definition elevenComments : Db :=
  mkDb [] []
    (map (fun k => comment (N.of_nat k) movieId "Perspiciatis sequi nesciunt maiores")
       (seq 1 11)).

Definition theater (id : string) : Doc :=
  mkDoc (VId (ObjectId.fromHex id)) [("theaterId", VNum 1000)].

Definition oneTheater : Db := mkDb [] [theater theaterId] [].

Definition oneComment : Db :=
  mkDb [] []
    [comment 1 theaterId "first";
     mkDoc (VId (ObjectId.fromHex commentId))
       (fields (comment 0 movieId "Perspiciatis sequi nesciunt maiores"))].

(** A request to [PUT /movies/abc/comments/xyz] without a body. *)
Definition putWithoutBody : Request :=
  mkRequest "abc" "" "xyz" (Throw (Error.make "Unexpected end of JSON input")).

Definition putText (text : string) : Request :=
  mkRequest movieId "" commentId (Ok (VObj [("text", VStr text)])).

End Sample.

(** The statuses the handlers write into the envelope. *)
Definition envelope_statuses : list Z := [200; 201; 400; 404; 405; 500].

(** A response as every handler builds it: transport status 200, and an
    envelope status out of the six above. *)
Definition well_formed_response (resp : NextResponse.t) : Prop :=
  NextResponse.status resp = 200 /\
  In (status (NextResponse.body resp)) envelope_statuses.

Definition any {A} : A -> Prop := fun _ => True.

(** [m] returns values satisfying [post], and the exception trace grows by
    exactly the exception [m] throws. *)
Definition step_ok {A} (post : A -> Prop) (m : M A) : Prop :=
  forall s,
    match m s with
    | (Ok a, s') => thrown s' = thrown s /\ post a
    | (Throw e, s') => thrown s' = (thrown s ++ [e])%list
    end.

(** The run answered with a response, and either nothing was thrown or the
    one exception thrown was turned into the status-500 envelope. *)
Definition answered (s : State) (resp : NextResponse.t) (s' : State) : Prop :=
  thrown s' = thrown s \/
  exists e, thrown s' = (thrown s ++ [e])%list /\
            NextResponse.body resp = internalServerError e.

(** The collection and the query of the single store call of an item
    handler, as the source writes them. *)
Definition item_collection (r : Route) : CollName :=
  match r with
  | MovieItemRoute => movies
  | TheatersRoute | TheaterItemRoute => theaters
  | CommentItemRoute | MovieCommentsRoute => comments
  end.

Definition item_filter (r : Route) (req : Request) : Filter :=
  match r with
  | MovieItemRoute => [("_id", VId (ObjectId.fromHex (idMovie req)))]
  | TheaterItemRoute => [("_id", VId (ObjectId.fromHex (idTheater req)))]
  | CommentItemRoute =>
      [("_id", VId (ObjectId.fromHex (idComment req)));
       ("movie_id", VId (ObjectId.fromHex (idMovie req)))]
  | TheatersRoute => []
  | MovieCommentsRoute => [("movie_id", VId (ObjectId.fromHex (idMovie req)))]
  end.

Definition is_item_route (r : Route) : bool :=
  match r with
  | MovieItemRoute | TheaterItemRoute | CommentItemRoute => true
  | TheatersRoute | MovieCommentsRoute => false
  end.

Definition item_call (m : Method) : OpKind :=
  match m with
  | GET => OpFindOne
  | POST => OpInsertOne
  | PUT => OpUpdateOne
  | DELETE => OpDeleteOne
  end.

(** The state after one more store call that left the database alone. *)
Definition called (o : OpKind) (c : CollName) (s : State) : State :=
  mkState (db s) (calls s ++ [mkCall o c])%list (thrown s).

(** The store call a handler issues when it gets that far; the collection
    handlers that only refuse the verb issue none. *)
Definition handler_call (r : Route) (m : Method) : option Call :=
  match r, m with
  | TheatersRoute, GET => Some (mkCall OpFind theaters)
  | MovieCommentsRoute, GET => Some (mkCall OpFind comments)
  | (MovieItemRoute | TheaterItemRoute | CommentItemRoute), _ =>
      Some (mkCall (item_call m) (item_collection r))
  | _, _ => None
  end.

(** What the item [GET] of a route puts under [data] for the document it
    found. *)
Definition item_data (r : Route) (d : Doc) : Data :=
  match r with
  | MovieItemRoute => DWrapped "movie" d
  | TheaterItemRoute => DWrapped "theater" d
  | _ => DDoc d
  end.

(** The fields the item [PUT] of a route hands to [$set]. *)
Definition item_update (r : Route) (req : Request) : Fields :=
  match r with
  | MovieItemRoute => MovieItem.replacement
  | TheaterItemRoute => TheaterItem.replacement
  | _ =>
      match json req with
      | Ok (VObj fs) => CommentItem.text_update (get_field "text" fs)
      | _ => CommentItem.text_update None
      end
  end.

(** The fields of the document the item [POST] of a route inserts. *)
Definition item_placeholder (r : Route) (env : Env) (req : Request) : Fields :=
  match r with
  | MovieItemRoute => MovieItem.placeholder
  | TheaterItemRoute => TheaterItem.placeholder
  | _ => CommentItem.newComment (ObjectId.fromHex (idMovie req)) (now env)
  end.

(** The verb a collection handler names when it refuses it. *)
Definition verb (m : Method) : string :=
  match m with
  | GET => "GET"
  | POST => "POST"
  | PUT => "PUT"
  | DELETE => "DELETE"
  end.

(** The state after one more store call that rewrote a collection. *)
Definition stored (o : OpKind) (c : CollName) (docs : Collection) (s : State) : State :=
  mkState (set_collection c docs (db s)) (calls s ++ [mkCall o c])%list (thrown s).

(** A store with one movie and one comment on it, and requests on them. *)
Module Fixture.

Definition movie : Doc :=
  mkDoc (VId (ObjectId.fromHex Sample.movieId))
    [("title", VStr "Blacksmith Scene"); ("year", VNum 1893); ("runtime", VNum 1)].

Definition oneMovie : Db :=
  mkDb [movie] [] [Sample.comment 7 Sample.movieId "seen"].

(** A request on the movie, without a body. *)
Definition onMovie : Request :=
  mkRequest Sample.movieId "" "" (Throw (Error.make "Unexpected end of JSON input")).

Definition onTheater : Request :=
  mkRequest "" Sample.theaterId "" (Ok VNull).

(** The identifier 42 that [Sample.env] generates, as a path segment. *)
Definition newId : string := "00000000000000000000002A".

Definition onNewMovie : Request := mkRequest newId "" "" (Ok VNull).

Definition postComment : Request := mkRequest Sample.movieId "" "null" (Ok VNull).

Definition onNewComment : Request := mkRequest Sample.movieId "" newId (Ok VNull).

(** The comment of [oneMovie], whose key is 7, addressed through the path
    of another movie. *)
Definition throughOtherMovie : Request :=
  mkRequest newId "" "000000000000000000000007" (Ok (VObj [("text", VStr "edited")])).

End Fixture.

(* ================================================================== *)
(** * Results *)

(** ** Running the monad *)

Ltac unfold_steps :=
  unfold find_toArray, findOne, insertOne, updateOne, deleteOne, store_call,
    await_client, internal_error, respond, record, get_coll, put_coll,
    try_catch, bind, lift, throw, ret in *.

Ltac unfold_handlers :=
  unfold handle,
    MovieItem.GET, MovieItem.POST, MovieItem.PUT, MovieItem.DELETE,
    Theaters.GET, Theaters.POST, Theaters.PUT, Theaters.DELETE,
    TheaterItem.GET, TheaterItem.POST, TheaterItem.PUT, TheaterItem.DELETE,
    CommentItem.GET, CommentItem.POST, CommentItem.PUT, CommentItem.DELETE,
    MovieComments.GET, MovieComments.POST, MovieComments.PUT, MovieComments.DELETE
    in *.

(** ** Identifiers *)

Lemma in_by_eqb (c : ascii) (l : list ascii) :
  existsb (Ascii.eqb c) l = true <-> In c l.
Proof.
  rewrite existsb_exists. split.
  - intros [x [Hin Heq]]. apply Ascii.eqb_eq in Heq. now subst.
  - intros Hin. exists c. split; [assumption | apply Ascii.eqb_refl].
Qed.

Lemma isHexDigit_table (c : ascii) :
  ObjectId.isHexDigit c = existsb (Ascii.eqb c) (list_ascii_of_string hexDigits).
Proof.
  destruct c as [[] [] [] [] [] [] [] []]; reflexivity.
Qed.

Lemma isHexDigit_iff (c : ascii) :
  ObjectId.isHexDigit c = true <-> In c (list_ascii_of_string hexDigits).
Proof.
  rewrite isHexDigit_table. apply in_by_eqb.
Qed.

Lemma isValid_iff (id : string) : ObjectId.isValid id = true <-> hex24 id.
Proof.
  unfold ObjectId.isValid, hex24.
  rewrite andb_true_iff, Nat.eqb_eq, forallb_forall.
  split; intros [Hlen Hall]; split; try assumption;
    intros c Hc; apply isHexDigit_iff; auto.
Qed.

Lemma isValid_false_iff (id : string) : ObjectId.isValid id = false <-> ~ hex24 id.
Proof.
  rewrite <- isValid_iff. destruct (ObjectId.isValid id); split; congruence.
Qed.

Lemma create_valid (id : string) :
  ObjectId.isValid id = true -> ObjectId.create id = Ok (ObjectId.fromHex id).
Proof.
  intros H. unfold ObjectId.create. now rewrite H.
Qed.

(** ** The format guard *)

Ltac case_ids :=
  repeat match goal with
    | |- context [ObjectId.isValid ?x] =>
        let E := fresh "Hvalid" in destruct (ObjectId.isValid x) eqn:E
    end.

(** A request with an id that fails the check: the handler answers without
    a store call; with the client error when the steps placed before the
    check pass, and through its [catch] block when one of them throws. *)
Lemma guard_outcome (r : Route) (m : Method) (env : Env) (req : Request) (s : State) :
  fails_check r m req = true ->
  exists resp s',
    handle r m env req s = (Ok resp, s') /\ db s' = db s /\ calls s' = calls s /\
    match before_check r m env req with
    | Ok _ =>
        status (NextResponse.body resp) = 400 /\
        data (NextResponse.body resp) = None /\ s' = s
    | Throw e =>
        NextResponse.body resp = internalServerError e /\
        thrown s' = (thrown s ++ [e])%list
    end.
Proof.
  intros Hfail. revert Hfail.
  destruct r, m; unfold fails_check, checked_ids; simpl; try discriminate;
    unfold_handlers; unfold before_check; unfold_steps.
  all: try (destruct (json req) as [v|?]; simpl;
            [destruct (CommentItem.destructure_text v) as [text|?]; simpl|]).
  all: try (destruct (clientPromise env) as [[]|?]; simpl).
  all: try (destruct (String.eqb (idComment req) "null"); simpl).
  all: case_ids; simpl; try discriminate; intros _.
  all: eexists; eexists; repeat split; reflexivity.
Qed.

Lemma fails_check_of_invalid (r : Route) (m : Method) (req : Request) (id : string) :
  In id (checked_ids r m req) -> ~ hex24 id -> fails_check r m req = true.
Proof.
  intros Hin Hbad. unfold fails_check. apply existsb_exists.
  exists id. split; [assumption|].
  apply isValid_false_iff in Hbad. now rewrite Hbad.
Qed.

(** C2.  The identifier validator accepts a string exactly when it is a
    24-character hexadecimal string; a string of any other shape, wherever
    a handler hands it to the validator, is answered with the client-error
    (status 400) envelope once the steps the handler runs before the check
    have passed. *)
Theorem isValid_accepts_exactly_hex24 (id : string) :
  (ObjectId.isValid id = true <-> hex24 id) /\
  (~ hex24 id ->
   forall r m env req s,
     In id (checked_ids r m req) ->
     before_check r m env req = Ok tt ->
     exists resp,
       handle r m env req s = (Ok resp, s) /\
       status (NextResponse.body resp) = 400).
Proof.
  split; [apply isValid_iff|].
  intros Hbad r m env req s Hin Hpre.
  destruct (guard_outcome r m env req s (fails_check_of_invalid r m req id Hin Hbad))
    as (resp & s' & Hrun & _ & _ & Hcase).
  rewrite Hpre in Hcase. destruct Hcase as (Hst & _ & ->).
  exists resp. split; assumption.
Qed.

Lemma isValid_accepts_exactly_hex24_witness :
  ~ hex24 "not-an-id" /\
  exists resp,
    handle CommentItemRoute DELETE Sample.offline
      (mkRequest Sample.movieId "" "not-an-id" (Ok VNull))
      (Sample.start Sample.oneComment)
    = (Ok resp, Sample.start Sample.oneComment) /\
    status (NextResponse.body resp) = 400.
Proof.
  assert (Hbad : ~ hex24 "not-an-id") by (intros [Hlen _]; discriminate Hlen).
  split; [exact Hbad|].
  apply (proj2 (isValid_accepts_exactly_hex24 "not-an-id") Hbad).
  - simpl. right. left. reflexivity.
  - reflexivity.
Defined.

(** C3, as amended.  On every id-based endpoint, a request whose path id
    fails the format check makes no store call and leaves the database as
    it was.  The answer is the status-400 envelope when the steps the
    handler runs before the check pass (awaiting the client in the movie
    and theater item handlers, the comment [GET] and the comment list;
    reading [text] from the parsed body in the comment [PUT]); when one of
    them throws, the answer is the status-500 envelope of the [catch]
    block. *)
Theorem invalid_id_short_circuits
    (r : Route) (m : Method) (env : Env) (req : Request) (s : State)
    (Hfail : fails_check r m req = true) :
  exists resp s',
    handle r m env req s = (Ok resp, s') /\
    db s' = db s /\ calls s' = calls s /\
    (before_check r m env req = Ok tt ->
       status (NextResponse.body resp) = 400 /\ s' = s) /\
    (forall e, before_check r m env req = Throw e ->
       NextResponse.body resp = internalServerError e).
Proof.
  destruct (guard_outcome r m env req s Hfail) as (resp & s' & Hrun & Hdb & Hcalls & Hcase).
  exists resp, s'.
  split; [exact Hrun|]. split; [exact Hdb|]. split; [exact Hcalls|]. split.
  - intros Hpre. rewrite Hpre in Hcase. tauto.
  - intros e Hpre. rewrite Hpre in Hcase. tauto.
Qed.

Lemma invalid_id_short_circuits_witness :
  fails_check MovieItemRoute PUT (mkRequest "123" "" "" (Ok VNull)) = true /\
  exists resp s',
    handle MovieItemRoute PUT Sample.env (mkRequest "123" "" "" (Ok VNull))
      (Sample.start Sample.emptyDb) = (Ok resp, s') /\
    db s' = Sample.emptyDb /\ calls s' = [] /\
    (before_check MovieItemRoute PUT Sample.env (mkRequest "123" "" "" (Ok VNull)) = Ok tt ->
       status (NextResponse.body resp) = 400 /\ s' = Sample.start Sample.emptyDb) /\
    (forall e,
       before_check MovieItemRoute PUT Sample.env (mkRequest "123" "" "" (Ok VNull)) = Throw e ->
       NextResponse.body resp = internalServerError e).
Proof.
  split; [reflexivity|].
  apply (invalid_id_short_circuits MovieItemRoute PUT Sample.env
           (mkRequest "123" "" "" (Ok VNull)) (Sample.start Sample.emptyDb)).
  reflexivity.
Defined.

(** C3 as stated fails: [PUT /movies/abc/comments/xyz] without a body has
    ids that fail the check, and is answered with status 500, because the
    body is read before the ids are looked at. *)
Lemma put_without_body_is_not_400 :
  fails_check CommentItemRoute PUT Sample.putWithoutBody = true /\
  handle CommentItemRoute PUT Sample.env Sample.putWithoutBody (Sample.start Sample.emptyDb)
  = (Ok (NextResponse.json
           (internalServerError (Error.make "Unexpected end of JSON input")) None),
     mkState Sample.emptyDb [] [Error.make "Unexpected end of JSON input"]) /\
  status (internalServerError (Error.make "Unexpected end of JSON input")) <> 400.
Proof.
  split; [reflexivity|]. split; [reflexivity|]. discriminate.
Qed.

(** ** List endpoints *)

Lemma filter_matches_all (docs : Collection) : filter (matches []) docs = docs.
Proof.
  induction docs as [|d docs IH]; simpl; [reflexivity | now rewrite IH].
Qed.

Lemma theaters_get_run (env : Env) (s : State) (resp : NextResponse.t) (s' : State) :
  Theaters.GET env s = (Ok resp, s') ->
  status (NextResponse.body resp) = 200 ->
  data (NextResponse.body resp) = Some (DArray (firstn 10 (collection theaters (db s)))).
Proof.
  unfold_handlers; unfold_steps.
  destruct (clientPromise env) as [[]|?]; simpl;
    [destruct (fault env); simpl|];
    intros Hrun Hst; inversion Hrun; subst; simpl in *; try discriminate.
  now rewrite filter_matches_all.
Qed.

Lemma comments_get_run (env : Env) (id : string) (s : State)
    (resp : NextResponse.t) (s' : State) :
  MovieComments.GET env id s = (Ok resp, s') ->
  status (NextResponse.body resp) = 200 ->
  data (NextResponse.body resp)
  = Some (DArray (filter (matches [("movie_id", VId (ObjectId.fromHex id))])
                    (collection comments (db s)))).
Proof.
  unfold_handlers; unfold_steps; unfold ObjectId.create.
  destruct (clientPromise env) as [[]|?]; simpl;
    [destruct (ObjectId.isValid id); simpl; [destruct (fault env); simpl|]|];
    intros Hrun Hst; inversion Hrun; subst; simpl in *; try discriminate.
  reflexivity.
Qed.

(** C1, as amended.  [GET /theaters] returns, in its 200 envelope, the
    first ten documents of the collection in store order, hence at most
    ten; [GET /movies/{idMovie}/comments] returns every comment whose
    [movie_id] matches the movie, without a cap. *)
Theorem list_endpoints_data (env : Env) (idMovie : string) (s : State) :
  (forall resp s',
     Theaters.GET env s = (Ok resp, s') ->
     status (NextResponse.body resp) = 200 ->
     exists docs,
       data (NextResponse.body resp) = Some (DArray docs) /\
       docs = firstn 10 (collection theaters (db s)) /\
       (List.length docs <= 10)%nat) /\
  (forall resp s',
     MovieComments.GET env idMovie s = (Ok resp, s') ->
     status (NextResponse.body resp) = 200 ->
     exists docs,
       data (NextResponse.body resp) = Some (DArray docs) /\
       docs = filter (matches [("movie_id", VId (ObjectId.fromHex idMovie))])
                (collection comments (db s))).
Proof.
  split; intros resp s' Hrun Hst.
  - eexists. split; [eapply theaters_get_run; eassumption|].
    split; [reflexivity | apply firstn_le_length].
  - eexists. split; [eapply comments_get_run; eassumption | reflexivity].
Qed.

Lemma list_endpoints_data_witness :
  (exists resp s',
     Theaters.GET Sample.env (Sample.start Sample.oneTheater) = (Ok resp, s') /\
     status (NextResponse.body resp) = 200 /\
     exists docs,
       data (NextResponse.body resp) = Some (DArray docs) /\
       docs = firstn 10 (db_theaters Sample.oneTheater) /\
       (List.length docs <= 10)%nat) /\
  (exists resp s',
     MovieComments.GET Sample.env Sample.movieId (Sample.start Sample.elevenComments)
     = (Ok resp, s') /\
     status (NextResponse.body resp) = 200 /\
     exists docs,
       data (NextResponse.body resp) = Some (DArray docs) /\
       docs = filter (matches [("movie_id", VId (ObjectId.fromHex Sample.movieId))])
                (db_comments Sample.elevenComments)).
Proof.
  split; eexists; eexists; (split; [vm_compute; reflexivity|]); (split; [reflexivity|]).
  - exact (proj1 (list_endpoints_data Sample.env Sample.movieId
                    (Sample.start Sample.oneTheater)) _ _ eq_refl eq_refl).
  - exact (proj2 (list_endpoints_data Sample.env Sample.movieId
                    (Sample.start Sample.elevenComments)) _ _ eq_refl eq_refl).
Defined.

(** C1 as stated fails for the comment list: with eleven comments on one
    movie, the 200 envelope carries all eleven. *)
Lemma comment_list_exceeds_ten :
  exists docs s',
    MovieComments.GET Sample.env Sample.movieId (Sample.start Sample.elevenComments)
    = (Ok (NextResponse.json
             {| status := 200; message := None; data := Some (DArray docs); error := None |}
             None), s') /\
    List.length docs = 11%nat /\ ~ (List.length docs <= 10)%nat.
Proof.
  eexists. eexists. split; [vm_compute; reflexivity|].
  split; [reflexivity | simpl; lia].
Qed.

(** ** Every handler answers *)

Lemma step_ret {A} (post : A -> Prop) (a : A) : post a -> step_ok post (ret a).
Proof. intros H s. simpl. auto. Qed.

Lemma step_throw {A} (post : A -> Prop) (e : Error.t) : step_ok post (throw e).
Proof. intros s. reflexivity. Qed.

Lemma step_lift {A} (r : Res A) : step_ok any (lift r).
Proof. destruct r; [now apply step_ret | apply step_throw]. Qed.

Lemma step_bind {A B} (post : B -> Prop) (m : M A) (k : A -> M B) :
  step_ok any m -> (forall a, step_ok post (k a)) -> step_ok post (bind m k).
Proof.
  intros Hm Hk s. unfold bind. specialize (Hm s).
  destruct (m s) as [[a|e] s1]; [|exact Hm].
  destruct Hm as [Hm _]. specialize (Hk a s1).
  destruct (k a s1) as [[b|e] s2]; now rewrite <- Hm.
Qed.

Lemma step_weaken {A} (post : A -> Prop) (m : M A) : step_ok post m -> step_ok any m.
Proof.
  intros H s. specialize (H s). destruct (m s) as [[a|e] s']; [|exact H].
  split; [apply H | exact I].
Qed.

Lemma step_respond (e : Envelope) :
  In (status e) envelope_statuses -> step_ok well_formed_response (respond e).
Proof. intros H. apply step_ret. split; [reflexivity | exact H]. Qed.

Lemma step_record (o : OpKind) (c : CollName) : step_ok any (record o c).
Proof. intros s. simpl. split; [reflexivity | exact I]. Qed.

Lemma step_get_coll (c : CollName) : step_ok any (get_coll c).
Proof. intros s. simpl. split; [reflexivity | exact I]. Qed.

Lemma step_put_coll (c : CollName) (docs : Collection) : step_ok any (put_coll c docs).
Proof. intros s. simpl. split; [reflexivity | exact I]. Qed.

Lemma step_store_call {A} (env : Env) (o : OpKind) (c : CollName) (run : M A) :
  step_ok any run -> step_ok any (store_call env o c run).
Proof.
  intros H. unfold store_call. apply step_bind; [apply step_record|].
  intros _. destruct (fault env); [apply step_throw | exact H].
Qed.

Create HintDb steps discriminated.

#[local] Hint Resolve step_lift step_throw step_record step_get_coll step_put_coll
  step_store_call : steps.

#[local] Hint Extern 1 (step_ok any (ret _)) => apply step_ret; exact I : steps.

(** Walks through a computation: binds are split, branches are taken one
    by one, and each leaf is closed from the hint database. *)
Ltac step :=
  repeat first
    [ apply step_respond; simpl; tauto
    | solve [auto with steps]
    | apply step_bind; [|intros ?]
    | match goal with
      | |- step_ok _ (if ?b then _ else _) => destruct b
      | |- step_ok _ (match ?x with _ => _ end) => destruct x
      end ].

Lemma step_find_toArray env c f limit : step_ok any (find_toArray env c f limit).
Proof. unfold find_toArray. apply step_store_call. step. Qed.

Lemma step_findOne env c f : step_ok any (findOne env c f).
Proof. unfold findOne. apply step_store_call. step. Qed.

Lemma step_insertOne env c fs : step_ok any (insertOne env c fs).
Proof. unfold insertOne. apply step_store_call. step. Qed.

Lemma step_updateOne env c f upd : step_ok any (updateOne env c f upd).
Proof. unfold updateOne. apply step_store_call. step. Qed.

Lemma step_deleteOne env c f : step_ok any (deleteOne env c f).
Proof. unfold deleteOne. apply step_store_call. step. Qed.

Lemma step_await_client env : step_ok any (await_client env).
Proof. apply step_lift. Qed.

#[local] Hint Resolve step_find_toArray step_findOne step_insertOne step_updateOne
  step_deleteOne step_await_client : steps.

(** [try { body } catch (error) { return 500 envelope }] always answers. *)
Lemma try_catch_answers (body : M NextResponse.t) (s : State) :
  step_ok well_formed_response body ->
  exists resp s',
    try_catch body internal_error s = (Ok resp, s') /\
    well_formed_response resp /\ answered s resp s'.
Proof.
  intros H. specialize (H s). unfold try_catch.
  destruct (body s) as [[resp|e] s'].
  - exists resp, s'. destruct H as [Ht Hw]. split; [reflexivity|]. split; [exact Hw|].
    left. exact Ht.
  - eexists. exists s'. split; [reflexivity|]. split.
    + split; [reflexivity | simpl; tauto].
    + right. exists e. split; [exact H | reflexivity].
Qed.

Lemma respond_answers (e : Envelope) (s : State) :
  In (status e) envelope_statuses ->
  exists resp s',
    respond e s = (Ok resp, s') /\ well_formed_response resp /\ answered s resp s'.
Proof.
  intros H. eexists. exists s. split; [reflexivity|]. split.
  - split; [reflexivity | exact H].
  - left. reflexivity.
Qed.

Lemma handle_answers (r : Route) (m : Method) (env : Env) (req : Request) (s : State) :
  exists resp s',
    handle r m env req s = (Ok resp, s') /\
    well_formed_response resp /\ answered s resp s'.
Proof.
  destruct r, m; unfold_handlers;
    try (apply respond_answers; simpl; tauto);
    apply try_catch_answers; cbv zeta; step.
Qed.

(** C4.  Whatever the endpoint, the request and the surroundings, the
    handler returns a response whose transport status is 200, while the
    [status] written into the envelope is one of 200, 201, 400, 404, 405
    and 500; each of the six occurs, under transport status 200. *)
Theorem transport_status_is_200 :
  (forall r m env req s,
     exists resp s',
       handle r m env req s = (Ok resp, s') /\
       NextResponse.status resp = 200 /\
       In (status (NextResponse.body resp)) envelope_statuses) /\
  Forall
    (fun st =>
       exists r m env req s resp s',
         handle r m env req s = (Ok resp, s') /\
         status (NextResponse.body resp) = st /\
         NextResponse.status resp = 200)
    envelope_statuses.
Proof.
  split.
  - intros r m env req s.
    destruct (handle_answers r m env req s) as (resp & s' & Hrun & [Hwire Hst] & _).
    exists resp, s'. auto.
  - unfold envelope_statuses. repeat apply Forall_cons; [ | | | | | | apply Forall_nil].
    + exists TheatersRoute, GET, Sample.env,
        (mkRequest "" "" "" (Ok VNull)), (Sample.start Sample.oneTheater).
      eexists. eexists. split; [reflexivity|]. split; reflexivity.
    + exists TheaterItemRoute, POST, Sample.env,
        (mkRequest "" "" "" (Ok VNull)), (Sample.start Sample.emptyDb).
      eexists. eexists. split; [reflexivity|]. split; reflexivity.
    + exists MovieItemRoute, GET, Sample.env,
        (mkRequest "abc" "" "" (Ok VNull)), (Sample.start Sample.emptyDb).
      eexists. eexists. split; [reflexivity|]. split; reflexivity.
    + exists MovieItemRoute, GET, Sample.env,
        (mkRequest Sample.movieId "" "" (Ok VNull)), (Sample.start Sample.emptyDb).
      eexists. eexists. split; [vm_compute; reflexivity|]. split; reflexivity.
    + exists TheatersRoute, DELETE, Sample.env,
        (mkRequest "" "" "" (Ok VNull)), (Sample.start Sample.emptyDb).
      eexists. eexists. split; [reflexivity|]. split; reflexivity.
    + exists MovieItemRoute, GET, Sample.offline,
        (mkRequest Sample.movieId "" "" (Ok VNull)), (Sample.start Sample.emptyDb).
      eexists. eexists. split; [reflexivity|]. split; reflexivity.
Qed.

(** C9.  No handler lets an exception out: every run ends in a response.
    Either no step threw, or the exception [e] that was thrown (by
    awaiting the client, by the store call, by reading the body, or by any
    other step of the [try] block) was caught and the response is the
    status-500 envelope whose [error] field is [e.message]. *)
Theorem exceptions_become_500 (r : Route) (m : Method) (env : Env) (req : Request)
    (s : State) :
  exists resp s',
    handle r m env req s = (Ok resp, s') /\
    (thrown s' = thrown s \/
     exists e,
       thrown s' = (thrown s ++ [e])%list /\
       status (NextResponse.body resp) = 500 /\
       error (NextResponse.body resp) = Some (Error.message e)).
Proof.
  destruct (handle_answers r m env req s) as (resp & s' & Hrun & _ & Hans).
  exists resp, s'. split; [exact Hrun|].
  destruct Hans as [Hsame | (e & Hgrow & Hbody)]; [left; exact Hsame|].
  right. exists e. rewrite Hbody. auto.
Qed.

(** ** Store calls that run to completion *)

Lemma findOne_run (env : Env) (c : CollName) (f : Filter) (s : State) :
  fault env = None ->
  findOne env c f s = (Ok (find (matches f) (collection c (db s))), called OpFindOne c s).
Proof. intros Hf. unfold_steps. rewrite Hf. reflexivity. Qed.

Lemma insertOne_run (env : Env) (c : CollName) (fs : Fields) (s : State) :
  fault env = None ->
  has_id (freshId env) (collection c (db s)) = false ->
  insertOne env c fs s
  = (Ok (freshId env),
     mkState
       (set_collection c (collection c (db s) ++ [mkDoc (VId (freshId env)) fs])%list (db s))
       (calls s ++ [mkCall OpInsertOne c])%list (thrown s)).
Proof. intros Hf Hfresh. unfold_steps. rewrite Hf. simpl. rewrite Hfresh. reflexivity. Qed.

Lemma updateOne_miss (env : Env) (c : CollName) (f : Filter) (upd : Fields) (s : State) :
  fault env = None ->
  find (matches f) (collection c (db s)) = None ->
  updateOne env c f upd s = (Ok (mkUpdateResult 0 0), called OpUpdateOne c s).
Proof. intros Hf Hnone. unfold_steps. rewrite Hf. simpl. rewrite Hnone. reflexivity. Qed.

Lemma updateOne_hit (env : Env) (c : CollName) (f : Filter) (upd : Fields) (s : State)
    (d : Doc) :
  fault env = None ->
  find (matches f) (collection c (db s)) = Some d ->
  exists n,
    updateOne env c f upd s
    = (Ok (mkUpdateResult 1 n),
       mkState
         (set_collection c (update_first (matches f) (set_doc upd) (collection c (db s))) (db s))
         (calls s ++ [mkCall OpUpdateOne c])%list (thrown s)).
Proof.
  intros Hf Hsome. unfold_steps. rewrite Hf. simpl. rewrite Hsome.
  eexists. reflexivity.
Qed.

Lemma deleteOne_miss (env : Env) (c : CollName) (f : Filter) (s : State) :
  fault env = None ->
  find (matches f) (collection c (db s)) = None ->
  deleteOne env c f s = (Ok (mkDeleteResult 0), called OpDeleteOne c s).
Proof. intros Hf Hnone. unfold_steps. rewrite Hf. simpl. rewrite Hnone. reflexivity. Qed.

Lemma deleteOne_hit (env : Env) (c : CollName) (f : Filter) (s : State) (d : Doc) :
  fault env = None ->
  find (matches f) (collection c (db s)) = Some d ->
  deleteOne env c f s
  = (Ok (mkDeleteResult 1),
     mkState (set_collection c (remove_first (matches f) (collection c (db s))) (db s))
       (calls s ++ [mkCall OpDeleteOne c])%list (thrown s)).
Proof. intros Hf Hsome. unfold_steps. rewrite Hf. simpl. rewrite Hsome. reflexivity. Qed.

Lemma find_none_iff {A} (p : A -> bool) (l : list A) :
  find p l = None <-> forall x, In x l -> p x = false.
Proof.
  split; [apply find_none|].
  induction l as [|a l IH]; simpl; intros H; [reflexivity|].
  rewrite (H a (or_introl eq_refl)). apply IH. intros x Hx. apply H. now right.
Qed.

(** Unfolds a handler down to its store call. *)
Ltac open_handler :=
  unfold_handlers;
  unfold try_catch, bind, await_client, internal_error, respond, lift, ret,
    ObjectId.create.

(** ** Identifiers that match nothing *)

(** The run of an item handler whose query matches nothing. *)
Lemma item_miss_run
    (r : Route) (m : Method) (env : Env) (req : Request) (s : State)
    (Hroute : is_item_route r = true)
    (Hmethod : m <> POST)
    (Hclient : clientPromise env = Ok tt)
    (Hfault : fault env = None)
    (Hbefore : before_check r m env req = Ok tt)
    (Hvalid : fails_check r m req = false)
    (Habsent : forall d, In d (collection (item_collection r) (db s)) ->
                         matches (item_filter r req) d = false) :
  exists resp,
    handle r m env req s = (Ok resp, called (item_call m) (item_collection r) s) /\
    status (NextResponse.body resp) = 404 /\
    data (NextResponse.body resp) = None.
Proof.
  apply find_none_iff in Habsent.
  destruct r; try discriminate Hroute; destruct m; try congruence;
    cbn [item_filter item_collection] in Habsent;
    revert Hvalid Hbefore; unfold fails_check, checked_ids, before_check; simpl;
    intros Hvalid Hbefore; open_handler.
  all: try (destruct (json req) as [v|?]; [|discriminate Hbefore];
            destruct (CommentItem.destructure_text v) as [text|?]; [|discriminate Hbefore]).
  all: rewrite ?Hclient; cbn [negb orb].
  all: case_ids; try discriminate Hvalid; cbn [negb orb].
  all: rewrite ?findOne_run, ?updateOne_miss, ?deleteOne_miss by assumption;
    try rewrite Habsent; eexists; split; [reflexivity|]; split; reflexivity.
Qed.

(** C7.  On the item routes (movies, theaters, and comments under a
    movie), when the ids of the request pass the format check and no
    document of the collection matches them, [GET], [PUT] and [DELETE]
    each answer with the status-404 envelope and leave the database as it
    was.  The store call is assumed to run to completion, and so are the
    steps placed before the check. *)
Theorem unknown_id_is_404
    (r : Route) (m : Method) (env : Env) (req : Request) (s : State)
    (Hroute : is_item_route r = true)
    (Hmethod : m <> POST)
    (Hclient : clientPromise env = Ok tt)
    (Hfault : fault env = None)
    (Hbefore : before_check r m env req = Ok tt)
    (Hvalid : fails_check r m req = false)
    (Habsent : forall d, In d (collection (item_collection r) (db s)) ->
                         matches (item_filter r req) d = false) :
  exists resp,
    handle r m env req s = (Ok resp, called (item_call m) (item_collection r) s) /\
    status (NextResponse.body resp) = 404 /\
    data (NextResponse.body resp) = None.
Proof.
  now apply item_miss_run.
Qed.

Lemma unknown_id_is_404_witness :
  exists resp,
    handle CommentItemRoute PUT Sample.env (Sample.putText "edited")
      (Sample.start Sample.oneTheater)
    = (Ok resp, called OpUpdateOne comments (Sample.start Sample.oneTheater)) /\
    status (NextResponse.body resp) = 404 /\
    data (NextResponse.body resp) = None.
Proof.
  apply (unknown_id_is_404 CommentItemRoute PUT Sample.env (Sample.putText "edited")
           (Sample.start Sample.oneTheater)).
  - reflexivity.
  - discriminate.
  - reflexivity.
  - reflexivity.
  - reflexivity.
  - reflexivity.
  - intros d [].
Defined.


(** ** Deleting twice *)

Lemma value_eqb_id (v : Value) (i : ObjectId.t) : value_eqb v (VId i) = true -> v = VId i.
Proof.
  destruct v; simpl; try discriminate.
  intros H. apply N.eqb_eq in H. now subst.
Qed.

(** A query on [_id] pins the key of the documents it matches. *)
Lemma matches_pins_key (f : Filter) (i : ObjectId.t) (d : Doc) :
  In ("_id", VId i) f -> key_ok (_id d) = true -> matches f d = true -> _id d = VId i.
Proof.
  intros Hin Hkey Hm. unfold matches in Hm. rewrite forallb_forall in Hm.
  specialize (Hm _ Hin). simpl in Hm. apply orb_true_iff in Hm.
  destruct Hm as [Hm | Hm]; [now apply value_eqb_id|].
  destruct (_id d); discriminate.
Qed.

Lemma item_filter_has_id (r : Route) (req : Request) :
  is_item_route r = true -> exists i, In ("_id", VId i) (item_filter r req).
Proof.
  destruct r; try discriminate; intros _; eexists; simpl; left; reflexivity.
Qed.

Lemma remove_first_split (p : Doc -> bool) (docs : Collection) (d : Doc) :
  find p docs = Some d ->
  exists pre post,
    docs = (pre ++ d :: post)%list /\
    (forall x, In x pre -> p x = false) /\
    p d = true /\
    remove_first p docs = (pre ++ post)%list.
Proof.
  induction docs as [|a docs IH]; simpl; [discriminate|].
  destruct (p a) eqn:Hp.
  - intros [= ->]. exists [], docs. repeat split; try assumption. intros x [].
  - intros Hfind. destruct (IH Hfind) as (pre & post & -> & Hpre & Hd & Hrm).
    exists (a :: pre), post. rewrite Hrm. repeat split; try assumption.
    intros x [<- | Hx]; [assumption | now apply Hpre].
Qed.

(** With unique keys, nothing is left that a query on [_id] matches once
    its first match is gone. *)
Lemma remove_first_no_match (f : Filter) (i : ObjectId.t) (docs : Collection) :
  In ("_id", VId i) f ->
  wf_collection docs ->
  forall d, In d (remove_first (matches f) docs) -> matches f d = false.
Proof.
  intros Hin [Hnodup Hkeys].
  induction docs as [|a docs IH]; simpl; [intros d []|].
  inversion Hnodup as [|k ks Hnotin Hrest]; subst.
  assert (Hkeys' : forall d, In d docs -> key_ok (_id d) = true)
    by (intros d Hd; apply Hkeys; now right).
  destruct (matches f a) eqn:Ha.
  - intros d Hd. destruct (matches f d) eqn:Hmd; [|reflexivity].
    exfalso. apply Hnotin.
    rewrite (matches_pins_key f i a Hin (Hkeys a (or_introl eq_refl)) Ha).
    rewrite <- (matches_pins_key f i d Hin (Hkeys' d Hd) Hmd).
    now apply in_map.
  - intros d [<- | Hd]; [assumption | now apply IH].
Qed.

Lemma collection_set_collection (c : CollName) (docs : Collection) (d : Db) :
  collection c (set_collection c docs d) = docs.
Proof. destruct c; reflexivity. Qed.

(** The run of an item [DELETE] whose query matches a document. *)
Lemma item_delete_run
    (r : Route) (env : Env) (req : Request) (s : State) (d : Doc)
    (Hroute : is_item_route r = true)
    (Hclient : clientPromise env = Ok tt)
    (Hfault : fault env = None)
    (Hvalid : fails_check r DELETE req = false)
    (Hfound : find (matches (item_filter r req)) (collection (item_collection r) (db s))
              = Some d) :
  exists resp,
    handle r DELETE env req s
    = (Ok resp,
       mkState
         (set_collection (item_collection r)
            (remove_first (matches (item_filter r req))
               (collection (item_collection r) (db s)))
            (db s))
         (calls s ++ [mkCall OpDeleteOne (item_collection r)])%list (thrown s)) /\
    status (NextResponse.body resp) = 200.
Proof.
  destruct r; try discriminate Hroute;
    cbn [item_filter item_collection] in *;
    revert Hvalid; unfold fails_check, checked_ids; simpl; intros Hvalid; open_handler.
  all: rewrite ?Hclient; cbn [negb orb].
  all: case_ids; try discriminate Hvalid; cbn [negb orb].
  all: rewrite (deleteOne_hit _ _ _ _ d) by assumption;
    eexists; split; reflexivity.
Qed.

(** C8.  On an item route, for ids that pass the format check and match a
    document of a collection with unique keys: a first [DELETE] answers
    with status 200 and removes that document and no other; a second
    [DELETE] of the same ids answers with status 404 and leaves the
    database as the first one left it.  Both store calls are assumed to run
    to completion. *)
Theorem delete_twice
    (r : Route) (env1 env2 : Env) (req : Request) (s : State)
    (Hroute : is_item_route r = true)
    (Henv1 : healthy env1)
    (Henv2 : healthy env2)
    (Hvalid : fails_check r DELETE req = false)
    (Hwf : wf_collection (collection (item_collection r) (db s)))
    (Hpresent : exists d, In d (collection (item_collection r) (db s)) /\
                          matches (item_filter r req) d = true) :
  exists resp1 s1 resp2 pre d post,
    handle r DELETE env1 req s = (Ok resp1, s1) /\
    status (NextResponse.body resp1) = 200 /\
    collection (item_collection r) (db s) = (pre ++ d :: post)%list /\
    matches (item_filter r req) d = true /\
    db s1 = set_collection (item_collection r) (pre ++ post)%list (db s) /\
    (forall x, In x (collection (item_collection r) (db s1)) ->
               matches (item_filter r req) x = false) /\
    handle r DELETE env2 req s1 = (Ok resp2, called OpDeleteOne (item_collection r) s1) /\
    status (NextResponse.body resp2) = 404.
Proof.
  destruct Henv1 as [Hc1 Hf1]. destruct Henv2 as [Hc2 Hf2].
  destruct (find (matches (item_filter r req)) (collection (item_collection r) (db s)))
    as [d|] eqn:Hfind.
  2:{ destruct Hpresent as (d & Hin & Hm).
      rewrite (find_none _ _ Hfind d Hin) in Hm. discriminate. }
  destruct (item_delete_run r env1 req s d Hroute Hc1 Hf1 Hvalid Hfind) as (resp1 & Hrun1 & Hst1).
  destruct (remove_first_split _ _ _ Hfind) as (pre & post & Hsplit & _ & Hd & Hrm).
  destruct (item_filter_has_id r req Hroute) as (i & Hi).
  assert (Hgone : forall x,
             In x (remove_first (matches (item_filter r req))
                     (collection (item_collection r) (db s))) ->
             matches (item_filter r req) x = false)
    by (apply (remove_first_no_match _ i); assumption).
  set (s1 := mkState
               (set_collection (item_collection r)
                  (remove_first (matches (item_filter r req))
                     (collection (item_collection r) (db s))) (db s))
               (calls s ++ [mkCall OpDeleteOne (item_collection r)])%list (thrown s)) in *.
  assert (Hcoll1 : collection (item_collection r) (db s1)
                   = remove_first (matches (item_filter r req))
                       (collection (item_collection r) (db s)))
    by apply collection_set_collection.
  destruct (item_miss_run r DELETE env2 req s1) as (resp2 & Hrun2 & Hst2 & _);
    try assumption; try discriminate.
  - destruct r; try discriminate Hroute; exact Hc2 || reflexivity.
  - intros x Hx. apply Hgone. now rewrite <- Hcoll1.
  - exists resp1, s1, resp2, pre, d, post.
    repeat split; try assumption.
    + unfold s1. simpl. now rewrite Hrm.
    + intros x Hx. apply Hgone. now rewrite <- Hcoll1.
Qed.

Lemma delete_twice_witness :
  exists resp1 s1 resp2 pre d post,
    handle TheaterItemRoute DELETE Sample.env (mkRequest "" Sample.theaterId "" (Ok VNull))
      (Sample.start Sample.oneTheater) = (Ok resp1, s1) /\
    status (NextResponse.body resp1) = 200 /\
    [Sample.theater Sample.theaterId] = (pre ++ d :: post)%list /\
    matches [("_id", VId (ObjectId.fromHex Sample.theaterId))] d = true /\
    db s1 = set_collection theaters (pre ++ post)%list Sample.oneTheater /\
    (forall x, In x (db_theaters (db s1)) ->
               matches [("_id", VId (ObjectId.fromHex Sample.theaterId))] x = false) /\
    handle TheaterItemRoute DELETE Sample.env (mkRequest "" Sample.theaterId "" (Ok VNull)) s1
    = (Ok resp2, called OpDeleteOne theaters s1) /\
    status (NextResponse.body resp2) = 404.
Proof.
  apply (delete_twice TheaterItemRoute Sample.env Sample.env
           (mkRequest "" Sample.theaterId "" (Ok VNull)) (Sample.start Sample.oneTheater)).
  - reflexivity.
  - split; reflexivity.
  - split; reflexivity.
  - reflexivity.
  - split.
    + simpl. constructor; [intros [] | constructor].
    + intros d [<- | []]. reflexivity.
  - exists (Sample.theater Sample.theaterId). split; [left; reflexivity | reflexivity].
Defined.

(** ** Creating documents *)

(** C6.  [POST] on [/movies/{idMovie}] and on [/theaters/{idTheater}]:
    whatever the path id and the body of the request, the handler appends
    exactly one document, the fixed placeholder under the key the driver
    generated, to the collection, and answers with the status-201 envelope
    whose [data] carries that key as [insertedId].  The store call is
    assumed to run to completion (the client resolves, the call does not
    fail, the generated key is new). *)
Theorem item_post_inserts_placeholder
    (env : Env) (req : Request) (s : State)
    (Henv : healthy env)
    (Hnew_movie : has_id (freshId env) (db_movies (db s)) = false)
    (Hnew_theater : has_id (freshId env) (db_theaters (db s)) = false) :
  handle MovieItemRoute POST env req s
  = (Ok (NextResponse.json
           {| status := 201; message := Some "Movie successfully added";
              data := Some (DInsertedId (freshId env)); error := None |} None),
     mkState
       (mkDb (db_movies (db s) ++ [mkDoc (VId (freshId env)) MovieItem.placeholder])%list
          (db_theaters (db s)) (db_comments (db s)))
       (calls s ++ [mkCall OpInsertOne movies])%list (thrown s)) /\
  handle TheaterItemRoute POST env req s
  = (Ok (NextResponse.json
           {| status := 201; message := Some "Theater successfully added";
              data := Some (DInsertedId (freshId env)); error := None |} None),
     mkState
       (mkDb (db_movies (db s))
          (db_theaters (db s) ++ [mkDoc (VId (freshId env)) TheaterItem.placeholder])%list
          (db_comments (db s)))
       (calls s ++ [mkCall OpInsertOne theaters])%list (thrown s)).
Proof.
  destruct Henv as [Hclient Hfault].
  split; open_handler; rewrite Hclient; cbv zeta; cbn iota beta;
    rewrite insertOne_run by assumption; reflexivity.
Qed.

Lemma item_post_inserts_placeholder_witness :
  handle MovieItemRoute POST Sample.env Sample.putWithoutBody (Sample.start Sample.oneTheater)
  = (Ok (NextResponse.json
           {| status := 201; message := Some "Movie successfully added";
              data := Some (DInsertedId 42%N); error := None |} None),
     mkState
       (mkDb [mkDoc (VId 42%N) MovieItem.placeholder]
          [Sample.theater Sample.theaterId] [])
       [mkCall OpInsertOne movies] []) /\
  handle TheaterItemRoute POST Sample.env Sample.putWithoutBody (Sample.start Sample.oneTheater)
  = (Ok (NextResponse.json
           {| status := 201; message := Some "Theater successfully added";
              data := Some (DInsertedId 42%N); error := None |} None),
     mkState
       (mkDb []
          [Sample.theater Sample.theaterId; mkDoc (VId 42%N) TheaterItem.placeholder] [])
       [mkCall OpInsertOne theaters] []).
Proof.
  apply (item_post_inserts_placeholder Sample.env Sample.putWithoutBody
           (Sample.start Sample.oneTheater)).
  - split; reflexivity.
  - reflexivity.
  - reflexivity.
Defined.

(** C5.  [POST /movies/{idMovie}/comments/{idComment}]: a comment is
    inserted, or the status-201 envelope returned, only when [idComment]
    is the literal ["null"] and [idMovie] passes the format check; the
    envelope then carries the key of the one comment appended.  For every
    other [idComment], whatever [idMovie], the answer is the status-400
    envelope and nothing is inserted: no store call is made and the
    database is as it was. *)
Theorem comment_post_needs_sentinel
    (env : Env) (req : Request) (s : State) (resp : NextResponse.t) (s' : State)
    (Hrun : handle CommentItemRoute POST env req s = (Ok resp, s')) :
  (idComment req <> "null" ->
     status (NextResponse.body resp) = 400 /\ s' = s) /\
  (status (NextResponse.body resp) = 201 \/ db s' <> db s ->
     idComment req = "null" /\
     ObjectId.isValid (idMovie req) = true /\
     status (NextResponse.body resp) = 201 /\
     data (NextResponse.body resp) = Some (DInsertedId (freshId env)) /\
     db s'
     = set_collection comments
         (db_comments (db s)
            ++ [mkDoc (VId (freshId env))
                  (CommentItem.newComment (ObjectId.fromHex (idMovie req)) (now env))])%list
         (db s)).
Proof.
  revert Hrun. open_handler. unfold insertOne. unfold_steps.
  destruct (String.eqb (idComment req) "null") eqn:Hnull; cbn [negb].
  2:{ intros [= <- <-]. split; [intros _; split; reflexivity|].
      intros [H | H]; [discriminate H | exfalso; apply H; reflexivity]. }
  apply String.eqb_eq in Hnull.
  destruct (ObjectId.isValid (idMovie req)) eqn:Hvalid; cbn [negb].
  2:{ intros [= <- <-]. split; [intros H; contradiction|].
      intros [H | H]; [discriminate H | exfalso; apply H; reflexivity]. }
  destruct (clientPromise env) as [[]|?]; simpl.
  2:{ intros [= <- <-]. split; [intros H; contradiction|].
      intros [H | H]; [discriminate H | exfalso; apply H; reflexivity]. }
  destruct (fault env); simpl.
  1:{ intros [= <- <-]. split; [intros H; contradiction|].
      intros [H | H]; [discriminate H | exfalso; apply H; reflexivity]. }
  destruct (has_id (freshId env) (db_comments (db s))); simpl.
  1:{ intros [= <- <-]. split; [intros H; contradiction|].
      intros [H | H]; [discriminate H | exfalso; apply H; reflexivity]. }
  intros [= <- <-]. split; [intros H; contradiction|].
  intros _. repeat split; assumption || reflexivity.
Qed.

Lemma comment_post_needs_sentinel_witness :
  (exists resp s',
     handle CommentItemRoute POST Sample.env
       (mkRequest Sample.movieId "" Sample.commentId (Ok VNull))
       (Sample.start Sample.emptyDb) = (Ok resp, s') /\
     Sample.commentId <> "null" /\
     status (NextResponse.body resp) = 400 /\ s' = Sample.start Sample.emptyDb) /\
  (exists resp s',
     handle CommentItemRoute POST Sample.env
       (mkRequest Sample.movieId "" "null" (Ok VNull))
       (Sample.start Sample.emptyDb) = (Ok resp, s') /\
     status (NextResponse.body resp) = 201 /\
     data (NextResponse.body resp) = Some (DInsertedId 42%N) /\
     db s'
     = mkDb [] []
         [mkDoc (VId 42%N)
            (CommentItem.newComment (ObjectId.fromHex Sample.movieId) 1700000000000)]).
Proof.
  split.
  - eexists. eexists. split; [reflexivity|].
    assert (Hother : Sample.commentId <> "null") by discriminate.
    split; [exact Hother|].
    exact (proj1 (comment_post_needs_sentinel Sample.env
                    (mkRequest Sample.movieId "" Sample.commentId (Ok VNull))
                    (Sample.start Sample.emptyDb) _ _ eq_refl) Hother).
  - eexists. eexists. split; [reflexivity|].
    destruct (proj2 (comment_post_needs_sentinel Sample.env
                       (mkRequest Sample.movieId "" "null" (Ok VNull))
                       (Sample.start Sample.emptyDb) _ _ eq_refl)
                (or_introl eq_refl)) as (_ & _ & Hst & Hdata & Hdb).
    split; [exact Hst|]. split; [exact Hdata | exact Hdb].
Defined.

(** The other direction of C5: with the sentinel, a well-formed movie id
    and a store call that runs to completion, the comment is created. *)
Lemma comment_post_creates (env : Env) (req : Request) (s : State) :
  healthy env ->
  has_id (freshId env) (db_comments (db s)) = false ->
  idComment req = "null" ->
  ObjectId.isValid (idMovie req) = true ->
  handle CommentItemRoute POST env req s
  = (Ok (NextResponse.json
           {| status := 201; message := Some "Comment created successfully";
              data := Some (DInsertedId (freshId env)); error := None |} None),
     mkState
       (set_collection comments
          (db_comments (db s)
             ++ [mkDoc (VId (freshId env))
                   (CommentItem.newComment (ObjectId.fromHex (idMovie req)) (now env))])%list
          (db s))
       (calls s ++ [mkCall OpInsertOne comments])%list (thrown s)).
Proof.
  intros [Hclient Hfault] Hnew Hnull Hvalid. open_handler.
  rewrite Hnull, Hvalid, Hclient. cbn [negb String.eqb Ascii.eqb Bool.eqb].
  cbn iota beta. rewrite insertOne_run by assumption. reflexivity.
Qed.

(** ** Updating a comment *)

Lemma get_field_set_field_same (k : string) (v : Value) (fs : Fields) :
  get_field k (set_field k v fs) = Some v.
Proof.
  induction fs as [|[k' v'] fs IH]; simpl.
  - now rewrite String.eqb_refl.
  - destruct (String.eqb k k') eqn:Hk; simpl; rewrite ?String.eqb_refl, ?Hk; auto.
Qed.

Lemma get_field_set_field_other (k k' : string) (v : Value) (fs : Fields) :
  k <> k' -> get_field k (set_field k' v fs) = get_field k fs.
Proof.
  intros Hneq. induction fs as [|[k0 v0] fs IH]; simpl.
  - apply String.eqb_neq in Hneq. now rewrite Hneq.
  - destruct (String.eqb k' k0) eqn:Hk; simpl.
    + apply String.eqb_eq in Hk. subst k0.
      apply String.eqb_neq in Hneq. now rewrite Hneq.
    + destruct (String.eqb k k0); [reflexivity | exact IH].
Qed.

Lemma update_first_split (p : Doc -> bool) (f : Doc -> Doc) (docs : Collection) (d : Doc) :
  find p docs = Some d ->
  exists pre post,
    docs = (pre ++ d :: post)%list /\
    (forall x, In x pre -> p x = false) /\
    p d = true /\
    update_first p f docs = (pre ++ f d :: post)%list.
Proof.
  induction docs as [|a docs IH]; simpl; [discriminate|].
  destruct (p a) eqn:Hp.
  - intros [= ->]. exists [], docs. repeat split; try assumption. intros x [].
  - intros Hfind. destruct (IH Hfind) as (pre & post & -> & Hpre & Hd & Hup).
    exists (a :: pre), post. rewrite Hup. repeat split; try assumption.
    intros x [<- | Hx]; [assumption | now apply Hpre].
Qed.

(** C10.  When [PUT /movies/{idMovie}/comments/{idComment}] answers with
    status 200, the comments collection differs from what it was in one
    document only, the first one matching both ids, and that document
    differs in its [text] field only: its [_id] and every field other than
    [text] are as before, [text] holds the value read from the body.  The
    movies and the theaters are untouched. *)
Theorem comment_put_sets_only_text
    (env : Env) (req : Request) (s : State) (resp : NextResponse.t) (s' : State)
    (Hrun : handle CommentItemRoute PUT env req s = (Ok resp, s'))
    (Hok : status (NextResponse.body resp) = 200) :
  exists pre d post d' text,
    db_comments (db s) = (pre ++ d :: post)%list /\
    (forall x, In x pre -> matches (item_filter CommentItemRoute req) x = false) /\
    matches (item_filter CommentItemRoute req) d = true /\
    db_comments (db s') = (pre ++ d' :: post)%list /\
    _id d' = _id d /\
    (forall k, k <> "text" -> get_field k (fields d') = get_field k (fields d)) /\
    get_field "text" (fields d') = Some text /\
    (exists body, json req = Ok body /\
                  CommentItem.text_update
                    (match body with VObj fs => get_field "text" fs | _ => None end)
                  = [("text", text)]) /\
    db_movies (db s') = db_movies (db s) /\
    db_theaters (db s') = db_theaters (db s).
Proof.
  revert Hrun. open_handler.
  destruct (json req) as [body|?]; simpl.
  2:{ intros [= <- <-]. discriminate Hok. }
  destruct (CommentItem.destructure_text body) as [text|?] eqn:Htext; simpl.
  2:{ intros [= <- <-]. discriminate Hok. }
  destruct (ObjectId.isValid (idMovie req)); cbn [negb orb].
  2:{ intros [= <- <-]. discriminate Hok. }
  destruct (ObjectId.isValid (idComment req)); cbn [negb orb].
  2:{ intros [= <- <-]. discriminate Hok. }
  destruct (clientPromise env) as [[]|?]; simpl.
  2:{ intros [= <- <-]. discriminate Hok. }
  unfold updateOne. unfold_steps.
  destruct (fault env); simpl.
  1:{ intros [= <- <-]. discriminate Hok. }
  fold (item_filter CommentItemRoute req).
  destruct (find (matches (item_filter CommentItemRoute req)) (db_comments (db s)))
    as [d|] eqn:Hfind; simpl.
  2:{ intros [= <- <-]. discriminate Hok. }
  intros [= <- <-]. simpl.
  destruct (update_first_split _ (set_doc (CommentItem.text_update text)) _ _ Hfind)
    as (pre & post & Hsplit & Hpre & Hd & Hup).
  exists pre, d, post, (set_doc (CommentItem.text_update text) d),
    (match text with Some v => v | None => VNull end).
  repeat split; try assumption.
  - intros k Hk. simpl. now apply get_field_set_field_other.
  - simpl. apply get_field_set_field_same.
  - exists body. split; [reflexivity|].
    destruct body; simpl in Htext; inversion Htext; subst; reflexivity.
Qed.

Lemma comment_put_sets_only_text_witness :
  exists resp s',
    handle CommentItemRoute PUT Sample.env (Sample.putText "edited")
      (Sample.start Sample.oneComment) = (Ok resp, s') /\
    status (NextResponse.body resp) = 200 /\
    exists pre d post d' text,
      db_comments Sample.oneComment = (pre ++ d :: post)%list /\
      (forall x, In x pre ->
                 matches (item_filter CommentItemRoute (Sample.putText "edited")) x = false) /\
      matches (item_filter CommentItemRoute (Sample.putText "edited")) d = true /\
      db_comments (db s') = (pre ++ d' :: post)%list /\
      _id d' = _id d /\
      (forall k, k <> "text" -> get_field k (fields d') = get_field k (fields d)) /\
      get_field "text" (fields d') = Some text /\
      (exists body, json (Sample.putText "edited") = Ok body /\
                    CommentItem.text_update
                      (match body with VObj fs => get_field "text" fs | _ => None end)
                    = [("text", text)]) /\
      db_movies (db s') = [] /\
      db_theaters (db s') = [].
Proof.
  eexists. eexists. split; [vm_compute; reflexivity|]. split; [reflexivity|].
  exact (comment_put_sets_only_text Sample.env (Sample.putText "edited")
           (Sample.start Sample.oneComment) _ _ eq_refl eq_refl).
Defined.

(** ** Failures of the surroundings *)

(** The store call fails: the handler has issued it, and answers with the
    status-500 envelope carrying the message of the failure. *)
Lemma store_fault_is_500
    (r : Route) (m : Method) (env : Env) (req : Request) (s : State)
    (e : Error.t) (c : Call) :
  handler_call r m = Some c ->
  clientPromise env = Ok tt ->
  fault env = Some e ->
  fails_check r m req = false ->
  before_check r m env req = Ok tt ->
  (r = CommentItemRoute -> m = POST -> idComment req = "null") ->
  handle r m env req s
  = (Ok (NextResponse.json (internalServerError e) None),
     mkState (db s) (calls s ++ [c])%list (thrown s ++ [e])%list).
Proof.
  intros Hcall Hclient Hfault Hvalid Hbefore Hnull.
  destruct r, m; try discriminate Hcall; injection Hcall as <-;
    revert Hvalid Hbefore; unfold fails_check, checked_ids, before_check; simpl;
    intros Hvalid Hbefore; open_handler.
  all: try rewrite (Hnull eq_refl eq_refl).
  all: try (destruct (json req) as [v|?]; [|discriminate Hbefore];
            destruct (CommentItem.destructure_text v) as [text|?]; [|discriminate Hbefore]).
  all: rewrite ?Hclient; cbn [negb orb String.eqb Ascii.eqb Bool.eqb]; cbn iota beta zeta.
  all: case_ids; try discriminate Hvalid; cbn [negb orb]; cbn iota beta zeta.
  all: unfold_steps; rewrite Hfault; reflexivity.
Qed.

(** The client promise rejects: the item handlers of movies and theaters,
    which await it first, answer with the status-500 envelope carrying the
    message of the rejection, and issue no store call. *)
Lemma client_failure_is_500 (m : Method) (env : Env) (req : Request) (s : State)
    (e : Error.t) :
  clientPromise env = Throw e ->
  handle MovieItemRoute m env req s
  = (Ok (NextResponse.json (internalServerError e) None),
     mkState (db s) (calls s) (thrown s ++ [e])%list) /\
  handle TheaterItemRoute m env req s
  = (Ok (NextResponse.json (internalServerError e) None),
     mkState (db s) (calls s) (thrown s ++ [e])%list).
Proof.
  intros Hclient. destruct m; split; open_handler; rewrite Hclient; reflexivity.
Qed.

(* ================================================================== *)
(** * Further properties of the handlers *)

(** ** What a handler touches *)

(** Splits a run on everything a handler branches on. *)
Ltac split_run :=
  repeat
    (simpl;
     match goal with
     | |- context [clientPromise ?e] => destruct (clientPromise e) as [[]|?]
     | |- context [json ?r] => destruct (json r)
     | |- context [CommentItem.destructure_text ?v] =>
         destruct (CommentItem.destructure_text v)
     | |- context [String.eqb ?a ?b] => destruct (String.eqb a b)
     | |- context [ObjectId.isValid ?x] => destruct (ObjectId.isValid x)
     | |- context [fault ?e] => destruct (fault e)
     | |- context [has_id ?i ?l] => destruct (has_id i l)
     | |- context [find ?p ?l] => destruct (find p l)
     end).

(** X1.  Every [GET] leaves the database as it found it. *)
Theorem get_is_read_only (r : Route) (env : Env) (req : Request) (s : State) :
  db (snd (handle r GET env req s)) = db s.
Proof.
  destruct r; unfold_handlers; unfold ObjectId.create; unfold_steps;
    split_run; reflexivity.
Qed.

(** The store calls and the collections a run can touch. *)
Lemma handle_footprint (r : Route) (m : Method) (env : Env) (req : Request) (s : State) :
  (calls (snd (handle r m env req s)) = calls s /\
   db (snd (handle r m env req s)) = db s) \/
  (exists c,
     handler_call r m = Some c /\
     calls (snd (handle r m env req s)) = (calls s ++ [c])%list /\
     forall other, other <> call_on c ->
       collection other (db (snd (handle r m env req s))) = collection other (db s)).
Proof.
  destruct r, m; unfold_handlers; unfold ObjectId.create; unfold_steps;
    split_run; simpl;
    first
      [ left; split; reflexivity
      | right; eexists; split; [reflexivity|]; split; [reflexivity|];
        intros other Hother; destruct other; simpl in *; congruence ].
Qed.

(** X2.  A handler issues at most one store call, the one of its route and
    verb, and no collection other than the one it calls changes. *)
Theorem one_store_call (r : Route) (m : Method) (env : Env) (req : Request) (s : State) :
  (calls (snd (handle r m env req s)) = calls s /\
   db (snd (handle r m env req s)) = db s) \/
  (exists c,
     handler_call r m = Some c /\
     calls (snd (handle r m env req s)) = (calls s ++ [c])%list /\
     forall other, other <> call_on c ->
       collection other (db (snd (handle r m env req s))) = collection other (db s)).
Proof. apply handle_footprint. Qed.

(** ** Runs of the item handlers that reach a document *)

Lemma find_toArray_run (env : Env) (c : CollName) (f : Filter) (limit : option nat)
    (s : State) :
  fault env = None ->
  find_toArray env c f limit s
  = (Ok (match limit with
         | Some n => firstn n (filter (matches f) (collection c (db s)))
         | None => filter (matches f) (collection c (db s))
         end), called OpFind c s).
Proof. intros Hf. unfold_steps. rewrite Hf. reflexivity. Qed.

Lemma item_get_run
    (r : Route) (env : Env) (req : Request) (s : State) (d : Doc)
    (Hroute : is_item_route r = true)
    (Hclient : clientPromise env = Ok tt)
    (Hfault : fault env = None)
    (Hvalid : fails_check r GET req = false)
    (Hfound : find (matches (item_filter r req)) (collection (item_collection r) (db s))
              = Some d) :
  handle r GET env req s
  = (Ok (NextResponse.json
           {| status := 200; message := None; data := Some (item_data r d); error := None |}
           None),
     called OpFindOne (item_collection r) s).
Proof.
  destruct r; try discriminate Hroute;
    cbn [item_filter item_collection] in *;
    revert Hvalid; unfold fails_check, checked_ids; simpl; intros Hvalid; open_handler.
  all: rewrite ?Hclient; cbn [negb orb].
  all: case_ids; try discriminate Hvalid; cbn [negb orb].
  all: rewrite findOne_run by assumption; rewrite Hfound; reflexivity.
Qed.

Lemma item_put_run
    (r : Route) (env : Env) (req : Request) (s : State) (d : Doc)
    (Hroute : is_item_route r = true)
    (Hclient : clientPromise env = Ok tt)
    (Hfault : fault env = None)
    (Hbefore : before_check r PUT env req = Ok tt)
    (Hvalid : fails_check r PUT req = false)
    (Hfound : find (matches (item_filter r req)) (collection (item_collection r) (db s))
              = Some d) :
  exists resp,
    handle r PUT env req s
    = (Ok resp,
       stored OpUpdateOne (item_collection r)
         (update_first (matches (item_filter r req)) (set_doc (item_update r req))
            (collection (item_collection r) (db s))) s) /\
    status (NextResponse.body resp) = 200.
Proof.
  destruct r; try discriminate Hroute;
    cbn [item_filter item_collection] in *;
    revert Hvalid Hbefore; unfold fails_check, checked_ids, before_check, item_update; simpl;
    intros Hvalid Hbefore; open_handler.
  all: try (destruct (json req) as [v|?]; [|discriminate Hbefore];
            destruct v; try discriminate Hbefore; cbn [CommentItem.destructure_text]).
  all: rewrite ?Hclient; cbn [negb orb].
  all: case_ids; try discriminate Hvalid; cbn [negb orb]; cbn beta iota zeta.
  all: match goal with
       | |- context [updateOne ?e ?c ?f ?u ?st] =>
           destruct (updateOne_hit e c f u st d Hfault Hfound) as [n Hrun]; rewrite Hrun
       end;
    eexists; split; reflexivity.
Qed.

Lemma item_post_run
    (r : Route) (env : Env) (req : Request) (s : State)
    (Hroute : is_item_route r = true)
    (Hclient : clientPromise env = Ok tt)
    (Hfault : fault env = None)
    (Hvalid : fails_check r POST req = false)
    (Hnull : r = CommentItemRoute -> idComment req = "null")
    (Hnew : has_id (freshId env) (collection (item_collection r) (db s)) = false) :
  exists resp,
    handle r POST env req s
    = (Ok resp,
       stored OpInsertOne (item_collection r)
         (collection (item_collection r) (db s)
            ++ [mkDoc (VId (freshId env)) (item_placeholder r env req)])%list s) /\
    status (NextResponse.body resp) = 201 /\
    data (NextResponse.body resp) = Some (DInsertedId (freshId env)).
Proof.
  destruct r; try discriminate Hroute;
    cbn [item_filter item_collection item_placeholder] in *;
    revert Hvalid; unfold fails_check, checked_ids; simpl; intros Hvalid; open_handler.
  all: try rewrite (Hnull eq_refl).
  all: rewrite ?Hclient; cbn [negb orb String.eqb Ascii.eqb Bool.eqb]; cbn beta iota zeta.
  all: case_ids; try discriminate Hvalid; cbn [negb orb]; cbn beta iota zeta.
  all: rewrite insertOne_run by assumption;
    eexists; split; [reflexivity|]; split; reflexivity.
Qed.

(** ** Lookups in a collection with unique keys *)

Lemma find_by_key (f : Filter) (i : ObjectId.t) (docs : Collection) (d : Doc) :
  In ("_id", VId i) f ->
  wf_collection docs ->
  In d docs ->
  matches f d = true ->
  find (matches f) docs = Some d.
Proof.
  intros Hin [Hnodup Hkeys] Hd Hm.
  induction docs as [|a docs IH]; simpl; [destruct Hd|].
  inversion Hnodup as [|k ks Hnotin Hrest]; subst.
  destruct Hd as [-> | Hd].
  - now rewrite Hm.
  - destruct (matches f a) eqn:Ha.
    + exfalso. apply Hnotin.
      rewrite (matches_pins_key f i a Hin (Hkeys a (or_introl eq_refl)) Ha).
      rewrite <- (matches_pins_key f i d Hin (Hkeys d (or_intror Hd)) Hm).
      now apply in_map.
    + apply IH; try assumption. intros x Hx. apply Hkeys. now right.
Qed.

Lemma find_split (p : Doc -> bool) (pre post : Collection) (d : Doc) :
  (forall x, In x pre -> p x = false) -> p d = true ->
  find p (pre ++ d :: post)%list = Some d.
Proof.
  intros Hpre Hd. induction pre as [|a pre IH]; simpl.
  - now rewrite Hd.
  - rewrite (Hpre a (or_introl eq_refl)). apply IH. intros x Hx. apply Hpre. now right.
Qed.

Lemma update_first_at (p : Doc -> bool) (f : Doc -> Doc) (pre post : Collection) (d : Doc) :
  (forall x, In x pre -> p x = false) -> p d = true ->
  update_first p f (pre ++ d :: post)%list = (pre ++ f d :: post)%list.
Proof.
  intros Hpre Hd. induction pre as [|a pre IH]; simpl.
  - now rewrite Hd.
  - rewrite (Hpre a (or_introl eq_refl)). f_equal. apply IH.
    intros x Hx. apply Hpre. now right.
Qed.

Lemma remove_first_at (p : Doc -> bool) (pre post : Collection) (d : Doc) :
  (forall x, In x pre -> p x = false) -> p d = true ->
  remove_first p (pre ++ d :: post)%list = (pre ++ post)%list.
Proof.
  intros Hpre Hd. induction pre as [|a pre IH]; simpl.
  - now rewrite Hd.
  - rewrite (Hpre a (or_introl eq_refl)). f_equal. apply IH.
    intros x Hx. apply Hpre. now right.
Qed.

Lemma set_collection_twice (c : CollName) (docs docs' : Collection) (d : Db) :
  set_collection c docs (set_collection c docs' d) = set_collection c docs d.
Proof. destruct c; reflexivity. Qed.

Lemma set_collection_same (c : CollName) (d : Db) :
  set_collection c (collection c d) d = d.
Proof. destruct c, d; reflexivity. Qed.

(** A key the collection does not hold is matched by none of its
    documents. *)
Lemma new_key_matches_nothing (f : Filter) (i : ObjectId.t) (docs : Collection) :
  In ("_id", VId i) f ->
  (forall d, In d docs -> key_ok (_id d) = true) ->
  has_id i docs = false ->
  forall d, In d docs -> matches f d = false.
Proof.
  intros Hin Hkeys Hnew d Hd.
  destruct (matches f d) eqn:Hm; [|reflexivity].
  assert (Hid : _id d = VId i) by (apply (matches_pins_key f); auto).
  unfold has_id in Hnew.
  assert (Hex : existsb (fun x => value_eqb (_id x) (VId i)) docs = true).
  { apply existsb_exists. exists d. split; [assumption|].
    rewrite Hid. simpl. apply N.eqb_refl. }
  congruence.
Qed.

(** ** Fields under [$set] *)

Lemma set_field_present (k : string) (v : Value) (fs : Fields) :
  get_field k fs = Some v -> set_field k v fs = fs.
Proof.
  induction fs as [|[k' v'] fs IH]; simpl; [discriminate|].
  destruct (String.eqb k k') eqn:Hk.
  - apply String.eqb_eq in Hk. now intros [= ->]; subst.
  - intros H. now rewrite IH.
Qed.

Lemma get_field_apply_set_other (k : string) (upd fs : Fields) :
  ~ In k (map fst upd) -> get_field k (apply_set upd fs) = get_field k fs.
Proof.
  unfold apply_set. revert fs.
  induction upd as [|[k' v'] upd IH]; simpl; intros fs Hk; [reflexivity|].
  rewrite IH by tauto. apply get_field_set_field_other. intros ->. tauto.
Qed.

Lemma get_field_apply_set_in (k : string) (v : Value) (upd fs : Fields) :
  NoDup (map fst upd) -> In (k, v) upd -> get_field k (apply_set upd fs) = Some v.
Proof.
  unfold apply_set. revert fs.
  induction upd as [|[k' v'] upd IH]; simpl; intros fs Hnd Hin; [destruct Hin|].
  inversion Hnd as [|? ? Hnotin Hrest]; subst.
  destruct Hin as [[= -> ->] | Hin].
  - change (get_field k (apply_set upd (set_field k v fs)) = Some v).
    rewrite get_field_apply_set_other by assumption.
    apply get_field_set_field_same.
  - now apply IH.
Qed.

Lemma apply_set_present (upd fs : Fields) :
  (forall k v, In (k, v) upd -> get_field k fs = Some v) -> apply_set upd fs = fs.
Proof.
  unfold apply_set. induction upd as [|[k v] upd IH]; simpl; intros H; [reflexivity|].
  rewrite set_field_present by (apply H; now left).
  apply IH. intros k' v' Hin. apply H. now right.
Qed.

(** Setting the same fields a second time changes nothing. *)
Lemma apply_set_twice (upd fs : Fields) :
  NoDup (map fst upd) -> apply_set upd (apply_set upd fs) = apply_set upd fs.
Proof.
  intros Hnd. apply apply_set_present. intros k v Hin.
  now apply get_field_apply_set_in.
Qed.

Lemma item_update_keys (r : Route) (req : Request) :
  NoDup (map fst (item_update r req)) /\
  ~ In "_id" (map fst (item_update r req)) /\
  ~ In "movie_id" (map fst (item_update r req)).
Proof.
  assert (Htext : forall t,
             NoDup (map fst (CommentItem.text_update t)) /\
             ~ In "_id" (map fst (CommentItem.text_update t)) /\
             ~ In "movie_id" (map fst (CommentItem.text_update t))).
  { intros t. simpl. repeat split.
    - repeat constructor. intros [].
    - intros [H | []]; discriminate H.
    - intros [H | []]; discriminate H. }
  destruct r; simpl; try (destruct (json req) as [[]|]; apply Htext).
  - repeat split.
    + repeat constructor; simpl; intuition discriminate.
    + simpl; intuition discriminate.
    + simpl; intuition discriminate.
  - repeat split.
    + repeat constructor; simpl; intuition discriminate.
    + simpl; intuition discriminate.
    + simpl; intuition discriminate.
Qed.

(** The query of an item route reads [_id] and [movie_id] only, which no
    [PUT] sets: a document matches after the update if it did before. *)
Lemma item_update_keeps_match (r : Route) (req : Request) (d : Doc) :
  matches (item_filter r req) (set_doc (item_update r req) d)
  = matches (item_filter r req) d.
Proof.
  destruct (item_update_keys r req) as (_ & _ & Hmovie).
  assert (Hfield : doc_field "movie_id" (set_doc (item_update r req) d)
                   = doc_field "movie_id" d).
  { unfold doc_field. simpl. now apply get_field_apply_set_other. }
  destruct r; unfold matches; cbn [item_filter forallb fst snd]; rewrite ?Hfield;
    reflexivity.
Qed.

(** ** Reading and updating a stored document *)

(** X3.  The item [GET]s return the stored document addressed by the ids, as it
    is, under status 200, with one [findOne] and no change to the
    database.  The collection has unique keys and the store call runs to
    completion. *)
Theorem item_get_returns_document
    (r : Route) (env : Env) (req : Request) (s : State) (d : Doc)
    (Hroute : is_item_route r = true)
    (Henv : healthy env)
    (Hvalid : fails_check r GET req = false)
    (Hwf : wf_collection (collection (item_collection r) (db s)))
    (Hin : In d (collection (item_collection r) (db s)))
    (Hmatch : matches (item_filter r req) d = true) :
  handle r GET env req s
  = (Ok (NextResponse.json
           {| status := 200; message := None; data := Some (item_data r d); error := None |}
           None),
     called OpFindOne (item_collection r) s).
Proof.
  destruct Henv as [Hclient Hfault].
  destruct (item_filter_has_id r req Hroute) as (i & Hi).
  apply item_get_run; try assumption.
  now apply (find_by_key _ i).
Qed.

Lemma item_get_returns_document_witness :
  handle CommentItemRoute GET Sample.env (Sample.putText "ignored")
    (Sample.start Sample.oneComment)
  = (Ok (NextResponse.json
           {| status := 200; message := None;
              data := Some (DDoc (mkDoc (VId (ObjectId.fromHex Sample.commentId))
                                    (fields (Sample.comment 0 Sample.movieId
                                               "Perspiciatis sequi nesciunt maiores"))));
              error := None |} None),
     called OpFindOne comments (Sample.start Sample.oneComment)).
Proof.
  apply (item_get_returns_document CommentItemRoute Sample.env (Sample.putText "ignored")
           (Sample.start Sample.oneComment)).
  - reflexivity.
  - split; reflexivity.
  - reflexivity.
  - split.
    + simpl. repeat constructor; simpl; intuition discriminate.
    + intros d [<- | [<- | []]]; reflexivity.
  - simpl. right. left. reflexivity.
  - reflexivity.
Defined.

(** The state an item [PUT] leaves when its query finds [d]. *)
Lemma item_put_state
    (r : Route) (env : Env) (req : Request) (s : State) (d : Doc)
    (Hroute : is_item_route r = true)
    (Henv : healthy env)
    (Hbefore : before_check r PUT env req = Ok tt)
    (Hvalid : fails_check r PUT req = false)
    (Hfound : find (matches (item_filter r req)) (collection (item_collection r) (db s))
              = Some d) :
  exists resp pre post,
    collection (item_collection r) (db s) = (pre ++ d :: post)%list /\
    (forall x, In x pre -> matches (item_filter r req) x = false) /\
    matches (item_filter r req) d = true /\
    handle r PUT env req s
    = (Ok resp,
       stored OpUpdateOne (item_collection r)
         (pre ++ set_doc (item_update r req) d :: post)%list s) /\
    status (NextResponse.body resp) = 200.
Proof.
  destruct Henv as [Hclient Hfault].
  destruct (item_put_run r env req s d Hroute Hclient Hfault Hbefore Hvalid Hfound)
    as (resp & Hrun & Hst).
  destruct (update_first_split _ (set_doc (item_update r req)) _ _ Hfound)
    as (pre & post & Hsplit & Hpre & Hd & Hup).
  exists resp, pre, post. rewrite <- Hup. auto.
Qed.

(** X4.  An item [PUT] that finds its document answers with status 200 and
    rewrites that document only: it keeps its place and its [_id], every
    field of the update holds the value given, every other field is as
    before.  For movies and theaters the update is the fixed replacement,
    whatever the body of the request; for comments it is [text]. *)
Theorem item_put_sets_fields
    (r : Route) (env : Env) (req : Request) (s : State) (d : Doc)
    (Hroute : is_item_route r = true)
    (Henv : healthy env)
    (Hbefore : before_check r PUT env req = Ok tt)
    (Hvalid : fails_check r PUT req = false)
    (Hwf : wf_collection (collection (item_collection r) (db s)))
    (Hin : In d (collection (item_collection r) (db s)))
    (Hmatch : matches (item_filter r req) d = true) :
  exists resp pre post d',
    handle r PUT env req s
    = (Ok resp, stored OpUpdateOne (item_collection r) (pre ++ d' :: post)%list s) /\
    status (NextResponse.body resp) = 200 /\
    collection (item_collection r) (db s) = (pre ++ d :: post)%list /\
    _id d' = _id d /\
    (forall k v, In (k, v) (item_update r req) -> get_field k (fields d') = Some v) /\
    (forall k, ~ In k (map fst (item_update r req)) ->
               get_field k (fields d') = get_field k (fields d)).
Proof.
  destruct (item_filter_has_id r req Hroute) as (i & Hi).
  assert (Hfound := find_by_key _ i _ d Hi Hwf Hin Hmatch).
  destruct (item_put_state r env req s d Hroute Henv Hbefore Hvalid Hfound)
    as (resp & pre & post & Hsplit & _ & _ & Hrun & Hst).
  destruct (item_update_keys r req) as (Hnd & _ & _).
  exists resp, pre, post, (set_doc (item_update r req) d).
  split; [exact Hrun|]. split; [exact Hst|]. split; [exact Hsplit|].
  split; [reflexivity|]. split.
  - intros k v Hkv. simpl. now apply get_field_apply_set_in.
  - intros k Hk. simpl. now apply get_field_apply_set_other.
Qed.

(** X5.  [PUT] is idempotent: a second [PUT] of the same request answers with
    status 200 again and leaves the database as the first one left it. *)
Theorem put_twice
    (r : Route) (env1 env2 : Env) (req : Request) (s : State) (d : Doc)
    (Hroute : is_item_route r = true)
    (Henv1 : healthy env1)
    (Henv2 : healthy env2)
    (Hbefore : before_check r PUT env1 req = Ok tt)
    (Hvalid : fails_check r PUT req = false)
    (Hfound : find (matches (item_filter r req)) (collection (item_collection r) (db s))
              = Some d) :
  exists resp1 s1 resp2 s2,
    handle r PUT env1 req s = (Ok resp1, s1) /\
    status (NextResponse.body resp1) = 200 /\
    handle r PUT env2 req s1 = (Ok resp2, s2) /\
    status (NextResponse.body resp2) = 200 /\
    db s2 = db s1.
Proof.
  destruct (item_put_state r env1 req s d Hroute Henv1 Hbefore Hvalid Hfound)
    as (resp1 & pre & post & Hsplit & Hpre & Hd & Hrun1 & Hst1).
  set (d' := set_doc (item_update r req) d) in *.
  set (s1 := stored OpUpdateOne (item_collection r) (pre ++ d' :: post)%list s) in *.
  assert (Hcoll1 : collection (item_collection r) (db s1) = (pre ++ d' :: post)%list)
    by apply collection_set_collection.
  assert (Hd' : matches (item_filter r req) d' = true)
    by (unfold d'; now rewrite item_update_keeps_match).
  assert (Hfound1 : find (matches (item_filter r req)) (collection (item_collection r) (db s1))
                    = Some d')
    by (rewrite Hcoll1; now apply find_split).
  assert (Hbefore2 : before_check r PUT env2 req = Ok tt).
  { destruct Henv1 as [Hc1 _], Henv2 as [Hc2 _].
    destruct r; try discriminate Hroute; simpl in *; congruence. }
  destruct (item_put_state r env2 req s1 d' Hroute Henv2 Hbefore2 Hvalid Hfound1)
    as (resp2 & pre2 & post2 & Hsplit2 & Hpre2 & _ & Hrun2 & Hst2).
  exists resp1, s1, resp2. eexists.
  split; [exact Hrun1|]. split; [exact Hst1|]. split; [exact Hrun2|]. split; [exact Hst2|].
  destruct (item_update_keys r req) as (Hnd & _ & _).
  assert (Hsame : set_doc (item_update r req) d' = d').
  { unfold d', set_doc. simpl. now rewrite apply_set_twice. }
  rewrite Hsame, <- Hsplit2, Hcoll1. simpl.
  rewrite set_collection_twice. reflexivity.
Qed.

(** X6.  After a [PUT] that found its document, a [GET] of the same ids returns
    the document as updated. *)
Theorem put_then_get
    (r : Route) (env1 env2 : Env) (req : Request) (s : State) (d : Doc)
    (Hroute : is_item_route r = true)
    (Henv1 : healthy env1)
    (Henv2 : healthy env2)
    (Hbefore : before_check r PUT env1 req = Ok tt)
    (Hvalid : fails_check r PUT req = false)
    (Hfound : find (matches (item_filter r req)) (collection (item_collection r) (db s))
              = Some d) :
  exists resp1 s1,
    handle r PUT env1 req s = (Ok resp1, s1) /\
    status (NextResponse.body resp1) = 200 /\
    handle r GET env2 req s1
    = (Ok (NextResponse.json
             {| status := 200; message := None;
                data := Some (item_data r (set_doc (item_update r req) d));
                error := None |} None),
       called OpFindOne (item_collection r) s1).
Proof.
  destruct (item_put_state r env1 req s d Hroute Henv1 Hbefore Hvalid Hfound)
    as (resp1 & pre & post & Hsplit & Hpre & Hd & Hrun1 & Hst1).
  set (d' := set_doc (item_update r req) d) in *.
  set (s1 := stored OpUpdateOne (item_collection r) (pre ++ d' :: post)%list s) in *.
  exists resp1, s1. split; [exact Hrun1|]. split; [exact Hst1|].
  destruct Henv2 as [Hc2 Hf2].
  apply item_get_run; try assumption.
  - destruct r; try discriminate Hroute; exact Hvalid.
  - unfold s1, stored. simpl. rewrite collection_set_collection.
    apply find_split; [assumption|].
    unfold d'. now rewrite item_update_keeps_match.
Qed.

Lemma item_put_sets_fields_witness :
  exists resp pre post d',
    handle MovieItemRoute PUT Sample.env Fixture.onMovie (Sample.start Fixture.oneMovie)
    = (Ok resp,
       stored OpUpdateOne movies (pre ++ d' :: post)%list (Sample.start Fixture.oneMovie)) /\
    status (NextResponse.body resp) = 200 /\
    [Fixture.movie] = (pre ++ Fixture.movie :: post)%list /\
    _id d' = _id Fixture.movie /\
    (forall k v, In (k, v) MovieItem.replacement -> get_field k (fields d') = Some v) /\
    (forall k, ~ In k (map fst MovieItem.replacement) ->
               get_field k (fields d') = get_field k (fields Fixture.movie)).
Proof.
  apply (item_put_sets_fields MovieItemRoute Sample.env Fixture.onMovie
           (Sample.start Fixture.oneMovie) Fixture.movie).
  - reflexivity.
  - split; reflexivity.
  - reflexivity.
  - reflexivity.
  - split.
    + simpl. repeat constructor. intros [].
    + intros d [<- | []]. reflexivity.
  - left. reflexivity.
  - reflexivity.
Defined.

Lemma put_twice_witness :
  exists resp1 s1 resp2 s2,
    handle TheaterItemRoute PUT Sample.env Fixture.onTheater (Sample.start Sample.oneTheater)
    = (Ok resp1, s1) /\
    status (NextResponse.body resp1) = 200 /\
    handle TheaterItemRoute PUT Sample.env Fixture.onTheater s1 = (Ok resp2, s2) /\
    status (NextResponse.body resp2) = 200 /\
    db s2 = db s1.
Proof.
  apply (put_twice TheaterItemRoute Sample.env Sample.env Fixture.onTheater
           (Sample.start Sample.oneTheater) (Sample.theater Sample.theaterId)).
  - reflexivity.
  - split; reflexivity.
  - split; reflexivity.
  - reflexivity.
  - reflexivity.
  - reflexivity.
Defined.

Lemma put_then_get_witness :
  exists resp1 s1,
    handle CommentItemRoute PUT Sample.env (Sample.putText "edited")
      (Sample.start Sample.oneComment) = (Ok resp1, s1) /\
    status (NextResponse.body resp1) = 200 /\
    handle CommentItemRoute GET Sample.env (Sample.putText "edited") s1
    = (Ok (NextResponse.json
             {| status := 200; message := None;
                data := Some (DDoc (set_doc [("text", VStr "edited")]
                                      (mkDoc (VId (ObjectId.fromHex Sample.commentId))
                                         (fields (Sample.comment 0 Sample.movieId
                                                    "Perspiciatis sequi nesciunt maiores")))));
                error := None |} None),
       called OpFindOne comments s1).
Proof.
  apply (put_then_get CommentItemRoute Sample.env Sample.env (Sample.putText "edited")
           (Sample.start Sample.oneComment)).
  - reflexivity.
  - split; reflexivity.
  - split; reflexivity.
  - reflexivity.
  - reflexivity.
  - reflexivity.
Defined.

(** ** Creating, then reading or deleting *)

(** The ids of a request address the document an item [POST] inserted:
    no older document of the collection is matched by them. *)
Lemma inserted_is_first_match
    (r : Route) (req : Request) (docs : Collection) (new : Doc) (i : ObjectId.t)
    (Hroute : is_item_route r = true)
    (Hkeys : forall d, In d docs -> key_ok (_id d) = true)
    (Hnew : has_id i docs = false)
    (Hid : _id new = VId i)
    (Hmatch : matches (item_filter r req) new = true) :
  forall d, In d docs -> matches (item_filter r req) d = false.
Proof.
  destruct (item_filter_has_id r req Hroute) as (j & Hj).
  assert (Hpin : _id new = VId j)
    by (apply (matches_pins_key (item_filter r req)); [assumption | now rewrite Hid | assumption]).
  assert (j = i) by congruence. subst j.
  now apply (new_key_matches_nothing _ i).
Qed.

(** X7.  After an item [POST] answered 201, a [GET] whose ids address the
    inserted document returns it: the placeholder, under the key the
    envelope of the [POST] announced. *)
Theorem post_then_get
    (r : Route) (env1 env2 : Env) (req1 req2 : Request) (s : State)
    (Hroute : is_item_route r = true)
    (Henv1 : healthy env1)
    (Henv2 : healthy env2)
    (Hvalid1 : fails_check r POST req1 = false)
    (Hnull : r = CommentItemRoute -> idComment req1 = "null")
    (Hkeys : forall d, In d (collection (item_collection r) (db s)) -> key_ok (_id d) = true)
    (Hnew : has_id (freshId env1) (collection (item_collection r) (db s)) = false)
    (Hvalid2 : fails_check r GET req2 = false)
    (Haddr : matches (item_filter r req2)
               (mkDoc (VId (freshId env1)) (item_placeholder r env1 req1)) = true) :
  exists resp1 s1,
    handle r POST env1 req1 s = (Ok resp1, s1) /\
    status (NextResponse.body resp1) = 201 /\
    data (NextResponse.body resp1) = Some (DInsertedId (freshId env1)) /\
    handle r GET env2 req2 s1
    = (Ok (NextResponse.json
             {| status := 200; message := None;
                data := Some (item_data r (mkDoc (VId (freshId env1))
                                             (item_placeholder r env1 req1)));
                error := None |} None),
       called OpFindOne (item_collection r) s1).
Proof.
  destruct Henv1 as [Hc1 Hf1]. destruct Henv2 as [Hc2 Hf2].
  destruct (item_post_run r env1 req1 s Hroute Hc1 Hf1 Hvalid1 Hnull Hnew)
    as (resp1 & Hrun1 & Hst1 & Hdata1).
  eexists. eexists. split; [exact Hrun1|]. split; [exact Hst1|]. split; [exact Hdata1|].
  apply item_get_run; try assumption.
  unfold stored. simpl. rewrite collection_set_collection.
  apply find_split; [|assumption].
  now apply (inserted_is_first_match r req2 _
               (mkDoc (VId (freshId env1)) (item_placeholder r env1 req1)) (freshId env1)).
Qed.

(** X8.  After an item [POST] answered 201, a [DELETE] whose ids address the
    inserted document answers 200 and the database is what it was before
    the [POST]. *)
Theorem post_then_delete
    (r : Route) (env1 env2 : Env) (req1 req2 : Request) (s : State)
    (Hroute : is_item_route r = true)
    (Henv1 : healthy env1)
    (Henv2 : healthy env2)
    (Hvalid1 : fails_check r POST req1 = false)
    (Hnull : r = CommentItemRoute -> idComment req1 = "null")
    (Hkeys : forall d, In d (collection (item_collection r) (db s)) -> key_ok (_id d) = true)
    (Hnew : has_id (freshId env1) (collection (item_collection r) (db s)) = false)
    (Hvalid2 : fails_check r DELETE req2 = false)
    (Haddr : matches (item_filter r req2)
               (mkDoc (VId (freshId env1)) (item_placeholder r env1 req1)) = true) :
  exists resp1 s1 resp2 s2,
    handle r POST env1 req1 s = (Ok resp1, s1) /\
    status (NextResponse.body resp1) = 201 /\
    handle r DELETE env2 req2 s1 = (Ok resp2, s2) /\
    status (NextResponse.body resp2) = 200 /\
    db s2 = db s.
Proof.
  destruct Henv1 as [Hc1 Hf1]. destruct Henv2 as [Hc2 Hf2].
  destruct (item_post_run r env1 req1 s Hroute Hc1 Hf1 Hvalid1 Hnull Hnew)
    as (resp1 & Hrun1 & Hst1 & _).
  set (new := mkDoc (VId (freshId env1)) (item_placeholder r env1 req1)) in *.
  set (docs := collection (item_collection r) (db s)) in *.
  set (s1 := stored OpInsertOne (item_collection r) (docs ++ [new])%list s) in *.
  assert (Hold : forall d, In d docs -> matches (item_filter r req2) d = false)
    by now apply (inserted_is_first_match r req2 _ new (freshId env1)).
  assert (Hcoll1 : collection (item_collection r) (db s1) = (docs ++ [new])%list)
    by apply collection_set_collection.
  assert (Hfound : find (matches (item_filter r req2)) (collection (item_collection r) (db s1))
                   = Some new)
    by (rewrite Hcoll1; now apply find_split).
  destruct (item_delete_run r env2 req2 s1 new Hroute Hc2 Hf2 Hvalid2 Hfound)
    as (resp2 & Hrun2 & Hst2).
  exists resp1, s1, resp2. eexists.
  split; [exact Hrun1|]. split; [exact Hst1|]. split; [exact Hrun2|]. split; [exact Hst2|].
  cbn [db]. rewrite Hcoll1, remove_first_at by assumption.
  rewrite app_nil_r. unfold s1, stored. cbn [db].
  rewrite set_collection_twice. apply set_collection_same.
Qed.

Lemma post_then_get_witness :
  exists resp1 s1,
    handle MovieItemRoute POST Sample.env Fixture.onMovie (Sample.start Fixture.oneMovie)
    = (Ok resp1, s1) /\
    status (NextResponse.body resp1) = 201 /\
    data (NextResponse.body resp1) = Some (DInsertedId 42%N) /\
    handle MovieItemRoute GET Sample.env Fixture.onNewMovie s1
    = (Ok (NextResponse.json
             {| status := 200; message := None;
                data := Some (DWrapped "movie" (mkDoc (VId 42%N) MovieItem.placeholder));
                error := None |} None),
       called OpFindOne movies s1).
Proof.
  apply (post_then_get MovieItemRoute Sample.env Sample.env Fixture.onMovie
           Fixture.onNewMovie (Sample.start Fixture.oneMovie)).
  - reflexivity.
  - split; reflexivity.
  - split; reflexivity.
  - reflexivity.
  - discriminate.
  - intros d [<- | []]. reflexivity.
  - reflexivity.
  - reflexivity.
  - reflexivity.
Defined.

Lemma post_then_delete_witness :
  exists resp1 s1 resp2 s2,
    handle CommentItemRoute POST Sample.env Fixture.postComment (Sample.start Fixture.oneMovie)
    = (Ok resp1, s1) /\
    status (NextResponse.body resp1) = 201 /\
    handle CommentItemRoute DELETE Sample.env Fixture.onNewComment s1 = (Ok resp2, s2) /\
    status (NextResponse.body resp2) = 200 /\
    db s2 = Fixture.oneMovie.
Proof.
  apply (post_then_delete CommentItemRoute Sample.env Sample.env Fixture.postComment
           Fixture.onNewComment (Sample.start Fixture.oneMovie)).
  - reflexivity.
  - split; reflexivity.
  - split; reflexivity.
  - reflexivity.
  - reflexivity.
  - intros d [<- | []]. reflexivity.
  - reflexivity.
  - reflexivity.
  - reflexivity.
Defined.

(** ** Comments under a movie *)

Lemma comments_list_run (env : Env) (req : Request) (s : State) :
  healthy env ->
  ObjectId.isValid (idMovie req) = true ->
  handle MovieCommentsRoute GET env req s
  = (Ok (NextResponse.json
           {| status := 200; message := None;
              data := Some (DArray (filter (matches (item_filter MovieCommentsRoute req))
                                      (db_comments (db s))));
              error := None |} None),
     called OpFind comments s).
Proof.
  intros [Hclient Hfault] Hvalid. open_handler.
  rewrite Hclient, Hvalid. cbn [negb]. cbn beta iota zeta.
  rewrite find_toArray_run by assumption. reflexivity.
Qed.

(** X9.  After [POST /movies/{idMovie}/comments/null] answered 201, the comment
    list of that movie is the list as it was, followed by the new comment:
    the hard-coded fields, the movie's id and the time of the request. *)
Theorem comment_post_then_list
    (env1 env2 : Env) (req : Request) (s : State)
    (Henv1 : healthy env1)
    (Henv2 : healthy env2)
    (Hnull : idComment req = "null")
    (Hvalid : ObjectId.isValid (idMovie req) = true)
    (Hnew : has_id (freshId env1) (db_comments (db s)) = false) :
  exists resp1 s1,
    handle CommentItemRoute POST env1 req s = (Ok resp1, s1) /\
    status (NextResponse.body resp1) = 201 /\
    handle MovieCommentsRoute GET env2 req s1
    = (Ok (NextResponse.json
             {| status := 200; message := None;
                data := Some (DArray
                  (filter (matches (item_filter MovieCommentsRoute req)) (db_comments (db s))
                   ++ [mkDoc (VId (freshId env1))
                         (CommentItem.newComment (ObjectId.fromHex (idMovie req)) (now env1))])%list);
                error := None |} None),
       called OpFind comments s1).
Proof.
  destruct Henv1 as [Hc1 Hf1].
  destruct (item_post_run CommentItemRoute env1 req s eq_refl Hc1 Hf1) as (resp1 & Hrun1 & Hst1 & _).
  - unfold fails_check. simpl. now rewrite Hvalid.
  - intros _. exact Hnull.
  - exact Hnew.
  - eexists. eexists. split; [exact Hrun1|]. split; [exact Hst1|].
    rewrite comments_list_run by assumption.
    unfold stored. cbn [db item_collection item_placeholder set_collection db_comments collection].
    rewrite filter_app. cbn [filter].
    assert (Hm : matches (item_filter MovieCommentsRoute req)
                   (mkDoc (VId (freshId env1))
                      (CommentItem.newComment (ObjectId.fromHex (idMovie req)) (now env1)))
                 = true).
    { unfold matches, item_filter, doc_field. simpl. now rewrite N.eqb_refl. }
    rewrite Hm. reflexivity.
Qed.

Lemma comment_post_then_list_witness :
  exists resp1 s1,
    handle CommentItemRoute POST Sample.env Fixture.postComment (Sample.start Fixture.oneMovie)
    = (Ok resp1, s1) /\
    status (NextResponse.body resp1) = 201 /\
    handle MovieCommentsRoute GET Sample.env Fixture.postComment s1
    = (Ok (NextResponse.json
             {| status := 200; message := None;
                data := Some (DArray
                  (filter (matches (item_filter MovieCommentsRoute Fixture.postComment))
                     [Sample.comment 7 Sample.movieId "seen"]
                   ++ [mkDoc (VId 42%N)
                         (CommentItem.newComment (ObjectId.fromHex Sample.movieId)
                            1700000000000)])%list);
                error := None |} None),
       called OpFind comments s1).
Proof.
  apply (comment_post_then_list Sample.env Sample.env Fixture.postComment
           (Sample.start Fixture.oneMovie)).
  - split; reflexivity.
  - split; reflexivity.
  - reflexivity.
  - reflexivity.
  - reflexivity.
Defined.

Lemma comments_list_reads_comments (env : Env) (req : Request) (s1 s2 : State) :
  db_comments (db s1) = db_comments (db s2) ->
  fst (handle MovieCommentsRoute GET env req s1)
  = fst (handle MovieCommentsRoute GET env req s2).
Proof.
  intros Hsame. unfold_handlers; unfold ObjectId.create; unfold_steps.
  split_run; simpl; rewrite ?Hsame; reflexivity.
Qed.

(** X10.  Nothing cascades from a movie to its comments: whatever a handler of
    [/movies/{idMovie}] did, [DELETE] included, the comment list of any
    movie answers as it would have before. *)
Theorem movie_handlers_keep_comments
    (m : Method) (env1 env2 : Env) (req1 req2 : Request) (s : State) :
  fst (handle MovieCommentsRoute GET env2 req2 (snd (handle MovieItemRoute m env1 req1 s)))
  = fst (handle MovieCommentsRoute GET env2 req2 s).
Proof.
  apply comments_list_reads_comments.
  destruct (handle_footprint MovieItemRoute m env1 req1 s) as [[_ Hdb] | (c & Hc & _ & Hother)].
  - now rewrite Hdb.
  - injection Hc as <-. apply (Hother comments). discriminate.
Qed.

(** X11.  A comment is reachable through its own movie only: when no comment of
    the store belongs to the movie of the path, [GET], [PUT] and [DELETE]
    on [/movies/{idMovie}/comments/{idComment}] answer with status 404 and
    leave the database as it was, even if a comment with that id exists
    under another movie. *)
Theorem comment_is_scoped_by_movie
    (m : Method) (env : Env) (req : Request) (s : State)
    (Hmethod : m <> POST)
    (Henv : healthy env)
    (Hbefore : before_check CommentItemRoute m env req = Ok tt)
    (Hvalid : fails_check CommentItemRoute m req = false)
    (Hother : forall d, In d (db_comments (db s)) ->
                exists movie,
                  get_field "movie_id" (fields d) = Some (VId movie) /\
                  movie <> ObjectId.fromHex (idMovie req)) :
  exists resp,
    handle CommentItemRoute m env req s = (Ok resp, called (item_call m) comments s) /\
    status (NextResponse.body resp) = 404.
Proof.
  destruct Henv as [Hclient Hfault].
  destruct (item_miss_run CommentItemRoute m env req s eq_refl Hmethod Hclient Hfault
              Hbefore Hvalid) as (resp & Hrun & Hst & _).
  - intros d Hd. destruct (Hother d Hd) as (movie & Hfield & Hneq).
    unfold matches, item_filter, doc_field. simpl. rewrite Hfield. simpl.
    apply N.eqb_neq in Hneq. rewrite Hneq. simpl.
    now rewrite andb_false_r.
  - exists resp. split; assumption.
Qed.

Lemma comment_is_scoped_by_movie_witness :
  _id (Sample.comment 7 Sample.movieId "seen")
  = VId (ObjectId.fromHex (idComment Fixture.throughOtherMovie)) /\
  exists resp,
    handle CommentItemRoute DELETE Sample.env Fixture.throughOtherMovie
      (Sample.start Fixture.oneMovie)
    = (Ok resp, called OpDeleteOne comments (Sample.start Fixture.oneMovie)) /\
    status (NextResponse.body resp) = 404.
Proof.
  split; [reflexivity|].
  apply (comment_is_scoped_by_movie DELETE Sample.env Fixture.throughOtherMovie).
  - discriminate.
  - split; reflexivity.
  - reflexivity.
  - reflexivity.
  - intros d [<- | []]. eexists. split; [reflexivity|]. discriminate.
Defined.

(** X12.  The comment [PUT] reads the body first: a body that is not JSON, or
    the JSON value [null], is answered with status 500 whatever the ids,
    well-formed or not, and nothing is asked of the store. *)
Theorem comment_put_needs_a_body
    (env : Env) (req : Request) (s : State)
    (Hbody : (exists e, json req = Throw e) \/ json req = Ok VNull) :
  exists resp s',
    handle CommentItemRoute PUT env req s = (Ok resp, s') /\
    status (NextResponse.body resp) = 500 /\
    (forall e, json req = Throw e ->
               error (NextResponse.body resp) = Some (Error.message e)) /\
    calls s' = calls s /\ db s' = db s.
Proof.
  open_handler. unfold throw.
  destruct Hbody as [[e Hbody] | Hbody]; rewrite Hbody; simpl;
    eexists; eexists; (split; [reflexivity|]); (split; [reflexivity|]);
    (split; [|split; reflexivity]).
  - intros e' [= <-]. reflexivity.
  - intros e' H. discriminate H.
Qed.

Lemma comment_put_needs_a_body_witness :
  exists resp s',
    handle CommentItemRoute PUT Sample.env
      (mkRequest Sample.movieId "" Sample.commentId (Ok VNull))
      (Sample.start Sample.oneComment) = (Ok resp, s') /\
    status (NextResponse.body resp) = 500 /\
    (forall e, Ok VNull = Throw e -> error (NextResponse.body resp) = Some (Error.message e)) /\
    calls s' = [] /\ db s' = Sample.oneComment.
Proof.
  apply (comment_put_needs_a_body Sample.env
           (mkRequest Sample.movieId "" Sample.commentId (Ok VNull))
           (Sample.start Sample.oneComment)).
  right. reflexivity.
Defined.

(** ** Lists at the edges *)

(** X13.  With ten theaters or fewer, [GET /theaters] returns the whole
    collection, in store order; with none, the empty array, under status
    200. *)
Theorem theaters_get_returns_all_up_to_ten
    (env : Env) (req : Request) (s : State)
    (Henv : healthy env)
    (Hsmall : (List.length (db_theaters (db s)) <= 10)%nat) :
  handle TheatersRoute GET env req s
  = (Ok (NextResponse.json
           {| status := 200; message := None;
              data := Some (DArray (db_theaters (db s))); error := None |} None),
     called OpFind theaters s).
Proof.
  destruct Henv as [Hclient Hfault]. open_handler. rewrite Hclient. cbn beta iota zeta.
  rewrite find_toArray_run by assumption. cbn [collection].
  rewrite filter_matches_all, firstn_all2 by assumption. reflexivity.
Qed.

Lemma theaters_get_returns_all_up_to_ten_witness :
  handle TheatersRoute GET Sample.env Fixture.onTheater (Sample.start Sample.emptyDb)
  = (Ok (NextResponse.json
           {| status := 200; message := None; data := Some (DArray []); error := None |} None),
     called OpFind theaters (Sample.start Sample.emptyDb)).
Proof.
  apply (theaters_get_returns_all_up_to_ten Sample.env Fixture.onTheater
           (Sample.start Sample.emptyDb)).
  - split; reflexivity.
  - simpl. lia.
Defined.

Lemma filter_none {A} (p : A -> bool) (l : list A) :
  (forall x, In x l -> p x = false) -> filter p l = [].
Proof.
  induction l as [|a l IH]; intros H; [reflexivity|].
  cbn [filter]. rewrite (H a (or_introl eq_refl)). apply IH.
  intros x Hx. apply H. now right.
Qed.

(** X14.  The comment list of a movie without comments is the empty array under
    status 200, not a 404: the handler never looks the movie up, so this
    is also the answer for a well-formed id of no movie at all. *)
Theorem comments_list_of_unknown_movie
    (env : Env) (req : Request) (s : State)
    (Henv : healthy env)
    (Hvalid : ObjectId.isValid (idMovie req) = true)
    (Hnone : forall d, In d (db_comments (db s)) ->
                       matches (item_filter MovieCommentsRoute req) d = false) :
  handle MovieCommentsRoute GET env req s
  = (Ok (NextResponse.json
           {| status := 200; message := None; data := Some (DArray []); error := None |} None),
     called OpFind comments s).
Proof.
  rewrite comments_list_run by assumption.
  now rewrite (filter_none _ _ Hnone).
Qed.

Lemma comments_list_of_unknown_movie_witness :
  handle MovieCommentsRoute GET Sample.env Fixture.onNewMovie (Sample.start Fixture.oneMovie)
  = (Ok (NextResponse.json
           {| status := 200; message := None; data := Some (DArray []); error := None |} None),
     called OpFind comments (Sample.start Fixture.oneMovie)).
Proof.
  apply (comments_list_of_unknown_movie Sample.env Fixture.onNewMovie
           (Sample.start Fixture.oneMovie)).
  - split; reflexivity.
  - reflexivity.
  - intros d [<- | []]. reflexivity.
Defined.

(** ** Refused verbs *)

(** X15.  The six collection handlers that refuse their verb ([POST], [PUT] and
    [DELETE] on the theater collection and on the comment list) answer
    with the status-405 envelope naming the verb, whatever the request;
    they do not wait for the client, so they answer the same when it is
    unreachable, and the state is untouched. *)
Theorem refused_verbs
    (r : Route) (m : Method) (env : Env) (req : Request) (s : State)
    (Hnone : handler_call r m = None) :
  handle r m env req s
  = (Ok (NextResponse.json
           {| status := 405; message := Some "Method Not Allowed"; data := None;
              error := Some (verb m ++ " method is not supported") |} None),
     s).
Proof.
  destruct r, m; try discriminate Hnone; reflexivity.
Qed.

Lemma refused_verbs_witness :
  handle MovieCommentsRoute DELETE Sample.offline Fixture.onMovie (Sample.start Fixture.oneMovie)
  = (Ok (NextResponse.json
           {| status := 405; message := Some "Method Not Allowed"; data := None;
              error := Some "DELETE method is not supported" |} None),
     Sample.start Fixture.oneMovie).
Proof.
  apply (refused_verbs MovieCommentsRoute DELETE Sample.offline Fixture.onMovie
           (Sample.start Fixture.oneMovie)).
  reflexivity.
Defined.
